(** * Real-Time Job Dispatcher Simulator: a shallow embedding of
      [src/dispatcher.cpp] and the properties of its scheduling core.

    The program is single threaded.  Its only sources of non-determinism are
    the steady clock, the random engine (seeded from [std::random_device]) and
    the content of the SQLite file it opens.  They are gathered in an
    [Oracle]; everything the program changes lives in a [State] that is
    passed explicitly from statement to statement.

    Integers.  C++ [int] and [int64_t] values are represented in [Z].
    Narrowing conversions ([(int)] applied to an [int64_t]) and the left
    shift of an [int], whose result is defined modulo [2^32], are wrapped
    explicitly with [to_int].  Signed additions and subtractions are written
    with the operations of [Z]: their overflow is undefined in C++, and the
    counters of the program ([successes++], [j.attempt += 1] under its
    guard, [j.priority + 1] with a priority of at most ten) cannot reach it.
    A [double] is represented by the rational it denotes; the rounding of
    floating-point operations is not modelled.  The conversion of a
    [double] to [int] is [double_to_int]. *)

From Stdlib Require Import ZArith List String Ascii QArith Qround Qminmax.
From Stdlib Require Import Lia Bool Permutation Arith FinFun.
From Stdlib Require Import Sorted.
Import ListNotations.

Local Open Scope string_scope.
Local Open Scope list_scope.
Local Open Scope Z_scope.

(* ------------------------------------------------------------------ *)
(** ** Machine integers *)

(** Two's complement reading of the low [w] bits of [x]. *)
Definition wrap (w : Z) (x : Z) : Z :=
  (x + 2 ^ (w - 1)) mod 2 ^ w - 2 ^ (w - 1).

(** Conversion to a 32-bit [int]. *)
Definition to_int (x : Z) : Z := wrap 32 x.

Definition INT_MAX : Z := 2 ^ 31 - 1.
Definition INT_MIN : Z := - 2 ^ 31.

(** [a << n] on [int]: the product with [2^n], reduced modulo [2^32]. *)
Definition shl_int (a n : Z) : Z := to_int (Z.shiftl a n).

(** [(int)] applied to a [double] whose value is the integer [v]: [v] when
    it fits.  Outside the range of [int] the conversion is undefined in
    C++; the conversion instruction of x86-64 then yields [INT_MIN], and so
    does the model. *)
Definition double_to_int (v : Z) : Z :=
  if (INT_MIN <=? v) && (v <=? INT_MAX) then v else INT_MIN.

(* ------------------------------------------------------------------ *)
(** ** Utilities: [Args] and [parse_args] *)

Record Args := {
  args_jobs : Z;
  args_max_retries : Z;
  args_mean_ms : Z;
  args_stddev_ms : Z;
  args_db : string
}.

Definition default_args : Args :=
  {| args_jobs := 12; args_max_retries := 2; args_mean_ms := 300;
     args_stddev_ms := 100; args_db := "dispatcher.db" |}.

Definition set_args_jobs (a : Args) (v : Z) : Args :=
  {| args_jobs := v; args_max_retries := args_max_retries a;
     args_mean_ms := args_mean_ms a; args_stddev_ms := args_stddev_ms a;
     args_db := args_db a |}.

Definition set_args_max_retries (a : Args) (v : Z) : Args :=
  {| args_jobs := args_jobs a; args_max_retries := v;
     args_mean_ms := args_mean_ms a; args_stddev_ms := args_stddev_ms a;
     args_db := args_db a |}.

Definition set_args_mean_ms (a : Args) (v : Z) : Args :=
  {| args_jobs := args_jobs a; args_max_retries := args_max_retries a;
     args_mean_ms := v; args_stddev_ms := args_stddev_ms a;
     args_db := args_db a |}.

Definition set_args_stddev_ms (a : Args) (v : Z) : Args :=
  {| args_jobs := args_jobs a; args_max_retries := args_max_retries a;
     args_mean_ms := args_mean_ms a; args_stddev_ms := v;
     args_db := args_db a |}.

Definition set_args_db (a : Args) (v : string) : Args :=
  {| args_jobs := args_jobs a; args_max_retries := args_max_retries a;
     args_mean_ms := args_mean_ms a; args_stddev_ms := args_stddev_ms a;
     args_db := v |}.

(** Library model.  [std::stoi] belongs to the C++ standard library: it skips
    leading white space, reads an optional sign and the longest run of
    decimal digits, and throws (here [None]) when there is no digit or the
    value does not fit an [int]. *)
Definition is_space (c : ascii) : bool :=
  let n := nat_of_ascii c in
  ((9 <=? n) && (n <=? 13))%nat || (n =? 32)%nat.

Definition digit_of (c : ascii) : option Z :=
  let n := nat_of_ascii c in
  if ((48 <=? n) && (n <=? 57))%nat then Some (Z.of_nat (n - 48)) else None.

Fixpoint skip_spaces (s : string) : string :=
  match s with
  | String c s' => if is_space c then skip_spaces s' else s
  | EmptyString => s
  end.

Fixpoint read_digits (s : string) (acc : option Z) : option Z :=
  match s with
  | String c s' =>
      match digit_of c with
      | Some d =>
          read_digits s' (Some (10 * match acc with Some v => v | None => 0 end + d))
      | None => acc
      end
  | EmptyString => acc
  end.

Definition in_int_range (v : Z) : bool := (INT_MIN <=? v) && (v <=? INT_MAX).

Definition stoi (s : string) : option Z :=
  let s := skip_spaces s in
  let '(neg, body) :=
    match s with
    | String "-"%char s' => (true, s')
    | String "+"%char s' => (false, s')
    | _ => (false, s)
    end in
  match read_digits body None with
  | Some v => let v := if neg then - v else v in
              if in_int_range v then Some v else None
  | None => None
  end.

(** [parse_args]: [rest] is what remains of [argv] from index [i] on.  The
    lambdas [need] and [needStr] consume the following argument when there is
    one and leave the field untouched otherwise.  [None] is an exception of
    [std::stoi] leaving [main]. *)
Fixpoint parse_loop (a : Args) (rest : list string) : option Args :=
  let need (set : Args -> Z -> Args) (tl : list string) :=
    match tl with
    | v :: tl' =>
        match stoi v with
        | Some n => parse_loop (set a n) tl'
        | None => None
        end
    | [] => Some a
    end in
  match rest with
  | [] => Some a
  | k :: tl =>
      if String.eqb k "--jobs" then need set_args_jobs tl
      else if String.eqb k "--max-retries" then need set_args_max_retries tl
      else if String.eqb k "--mean-ms" then need set_args_mean_ms tl
      else if String.eqb k "--stddev-ms" then need set_args_stddev_ms tl
      else if String.eqb k "--db" then
        match tl with
        | v :: tl' => parse_loop (set_args_db a v) tl'
        | [] => Some a
        end
      else parse_loop a tl
  end.

Definition parse_args (argv : list string) : option Args :=
  parse_loop default_args (tl argv).

(* ------------------------------------------------------------------ *)
(** ** Domain: [Job] and [JobCmp] *)

Record Job := {
  ext_id : Z;
  priority : Z;
  attempt : Z;
  max_retries : Z;
  enqueue_ts : Z;
  start_ts : option Z;
  end_ts : option Z;
  wait_ms : Z;
  service_ms : Z;
  turnaround_ms : Z;
  status : string;
  fail_reason : string
}.

(** The default member initialisers of [Job], with the four fields that
    [seed_jobs] assigns. *)
Definition new_job (id prio retries enq : Z) : Job :=
  {| ext_id := id; priority := prio; attempt := 0; max_retries := retries;
     enqueue_ts := enq; start_ts := None; end_ts := None;
     wait_ms := 0; service_ms := 0; turnaround_ms := 0;
     status := "PENDING"; fail_reason := "" |}.

Definition set_priority (j : Job) (v : Z) : Job :=
  {| ext_id := ext_id j; priority := v; attempt := attempt j;
     max_retries := max_retries j; enqueue_ts := enqueue_ts j;
     start_ts := start_ts j; end_ts := end_ts j; wait_ms := wait_ms j;
     service_ms := service_ms j; turnaround_ms := turnaround_ms j;
     status := status j; fail_reason := fail_reason j |}.

Definition set_attempt (j : Job) (v : Z) : Job :=
  {| ext_id := ext_id j; priority := priority j; attempt := v;
     max_retries := max_retries j; enqueue_ts := enqueue_ts j;
     start_ts := start_ts j; end_ts := end_ts j; wait_ms := wait_ms j;
     service_ms := service_ms j; turnaround_ms := turnaround_ms j;
     status := status j; fail_reason := fail_reason j |}.

Definition set_enqueue_ts (j : Job) (v : Z) : Job :=
  {| ext_id := ext_id j; priority := priority j; attempt := attempt j;
     max_retries := max_retries j; enqueue_ts := v;
     start_ts := start_ts j; end_ts := end_ts j; wait_ms := wait_ms j;
     service_ms := service_ms j; turnaround_ms := turnaround_ms j;
     status := status j; fail_reason := fail_reason j |}.

Definition set_start_ts (j : Job) (v : Z) : Job :=
  {| ext_id := ext_id j; priority := priority j; attempt := attempt j;
     max_retries := max_retries j; enqueue_ts := enqueue_ts j;
     start_ts := Some v; end_ts := end_ts j; wait_ms := wait_ms j;
     service_ms := service_ms j; turnaround_ms := turnaround_ms j;
     status := status j; fail_reason := fail_reason j |}.

Definition set_end_ts (j : Job) (v : Z) : Job :=
  {| ext_id := ext_id j; priority := priority j; attempt := attempt j;
     max_retries := max_retries j; enqueue_ts := enqueue_ts j;
     start_ts := start_ts j; end_ts := Some v; wait_ms := wait_ms j;
     service_ms := service_ms j; turnaround_ms := turnaround_ms j;
     status := status j; fail_reason := fail_reason j |}.

Definition set_wait_ms (j : Job) (v : Z) : Job :=
  {| ext_id := ext_id j; priority := priority j; attempt := attempt j;
     max_retries := max_retries j; enqueue_ts := enqueue_ts j;
     start_ts := start_ts j; end_ts := end_ts j; wait_ms := v;
     service_ms := service_ms j; turnaround_ms := turnaround_ms j;
     status := status j; fail_reason := fail_reason j |}.

Definition set_service_ms (j : Job) (v : Z) : Job :=
  {| ext_id := ext_id j; priority := priority j; attempt := attempt j;
     max_retries := max_retries j; enqueue_ts := enqueue_ts j;
     start_ts := start_ts j; end_ts := end_ts j; wait_ms := wait_ms j;
     service_ms := v; turnaround_ms := turnaround_ms j;
     status := status j; fail_reason := fail_reason j |}.

Definition set_turnaround_ms (j : Job) (v : Z) : Job :=
  {| ext_id := ext_id j; priority := priority j; attempt := attempt j;
     max_retries := max_retries j; enqueue_ts := enqueue_ts j;
     start_ts := start_ts j; end_ts := end_ts j; wait_ms := wait_ms j;
     service_ms := service_ms j; turnaround_ms := v;
     status := status j; fail_reason := fail_reason j |}.

Definition set_status (j : Job) (v : string) : Job :=
  {| ext_id := ext_id j; priority := priority j; attempt := attempt j;
     max_retries := max_retries j; enqueue_ts := enqueue_ts j;
     start_ts := start_ts j; end_ts := end_ts j; wait_ms := wait_ms j;
     service_ms := service_ms j; turnaround_ms := turnaround_ms j;
     status := v; fail_reason := fail_reason j |}.

Definition set_fail_reason (j : Job) (v : string) : Job :=
  {| ext_id := ext_id j; priority := priority j; attempt := attempt j;
     max_retries := max_retries j; enqueue_ts := enqueue_ts j;
     start_ts := start_ts j; end_ts := end_ts j; wait_ms := wait_ms j;
     service_ms := service_ms j; turnaround_ms := turnaround_ms j;
     status := status j; fail_reason := v |}.

(** [JobCmp::operator()]: [true] when [a] is to be served after [b]. *)
Definition JobCmp (a b : Job) : bool :=
  if negb (priority a =? priority b) then priority a <? priority b
  else enqueue_ts a >? enqueue_ts b.

(* ------------------------------------------------------------------ *)
(** ** The scheduling queue

    Library model.  [std::priority_queue<Job, std::vector<Job>, JobCmp>] is
    specified by the C++ standard through its comparator only: [top] is an
    element [m] of the container such that [JobCmp m x] holds for no element
    [x], [pop] removes it, [push] adds one element.  The queue is
    represented by the list of its elements in insertion order; among the
    elements that [JobCmp] does not separate, [top] is the one inserted
    first (the standard leaves that choice to the heap algorithm). *)

Definition PQ := list Job.

(** One pass over [rest] with the best element so far: the maximum, and the
    other elements in their order. *)
Fixpoint pq_extract (best : Job) (rest : list Job) : Job * list Job :=
  match rest with
  | [] => (best, [])
  | x :: xs =>
      if JobCmp best x
      then let '(m, r) := pq_extract x xs in (m, best :: r)
      else let '(m, r) := pq_extract best xs in (m, x :: r)
  end.

Definition pq_empty (q : PQ) : bool :=
  match q with [] => true | _ :: _ => false end.

Definition pq_top (q : PQ) : option Job :=
  match q with
  | [] => None
  | x :: xs => Some (fst (pq_extract x xs))
  end.

Definition pq_pop (q : PQ) : PQ :=
  match q with
  | [] => []
  | x :: xs => snd (pq_extract x xs)
  end.

Definition pq_push (j : Job) (q : PQ) : PQ := q ++ [j].

(** [popMax] of the specification: [top] followed by [pop]. *)
Definition popMax (q : PQ) : option (Job * PQ) :=
  match pq_top q with
  | Some j => Some (j, pq_pop q)
  | None => None
  end.

(* ------------------------------------------------------------------ *)
(** ** SQLite helpers: the two tables of [create_schema]

    Library model.  SQLite is an external library; a table is the list of its
    rows in insertion order, and an [INTEGER PRIMARY KEY AUTOINCREMENT]
    column receives one more than the largest key the table ever held, at
    least 1.  Statements are assumed to succeed (the [die] and [std::exit]
    paths are not part of the model). *)

Record RunRow := {
  r_run_id : Z;
  r_started_at : Z;
  r_finished_at : Z;
  r_total_jobs : Z;
  r_success_jobs : Z;
  r_failed_jobs : Z;
  r_avg_wait_ms : Q;
  r_avg_service_ms : Q;
  r_avg_turnaround_ms : Q;
  r_throughput_jobs_per_s : Q
}.

Record JobRow := {
  j_job_id : Z;
  j_run_id : Z;
  j_ext_id : Z;
  j_priority : Z;
  j_attempt : Z;
  j_status : string;
  j_fail_reason : string;
  j_enqueue_ts : Z;
  j_start_ts : Z;
  j_end_ts : Z;
  j_wait_ms : Z;
  j_service_ms : Z;
  j_turnaround_ms : Z
}.

Record DB := {
  runs : list RunRow;
  runs_seq : Z;
  jobs : list JobRow;
  jobs_seq : Z
}.

Definition next_rowid (seq : Z) (keys : list Z) : Z :=
  1 + fold_right Z.max (Z.max 0 seq) keys.

Definition value_or (x : option Z) (d : Z) : Z :=
  match x with Some v => v | None => d end.

(* ------------------------------------------------------------------ *)
(** ** The environment and the program state *)

(** What one call of a distribution of [RNG] on the engine [gen] yields,
    read as each of the three distributions reads it: a raw word for
    [prio_dist], a standard normal variate for [service_ms_norm], a number
    of [[0,1)] for the Bernoulli trial.  How often a distribution invokes
    the engine for one result is left to the library. *)
Record Draw := {
  word : Z;
  normal01 : Q;
  canonical : Q
}.

(** [steady_ns n] is the [n]-th reading of [Clock::now()], in nanoseconds;
    [entropy n] is what the [n]-th call of a distribution obtains from
    [RNG::gen], an engine that the constructor of [RNG] seeds with
    [std::random_device{}()]; [disk p] is the content of the database file
    [p] when it is opened. *)
Record Oracle := {
  steady_ns : nat -> Z;
  entropy : nat -> Draw;
  disk : string -> DB
}.

Inductive Event :=
| Sleep (ms : Z)
| LogStart (a : Args)
| LogJob (j : Job)
| LogSummary (total succ fail : Z) (avg_wait avg_service avg_turn thr : Q).

Record RunRecorder := {
  run_start_ms : Z;
  run_end_ms : Z;
  run_id : Z
}.

(** The members of [Dispatcher] that change ([rng], [db], [rec], [pq],
    [completed]; [args] is constant and passed separately), the local
    variables of [Dispatcher::run], and the effects on the outside: the number
    of clock readings so far and the sleeps and console lines in order.
    [rng_draws] is the number of calls made so far to the three methods of
    [RNG]. *)
Record State := {
  rng_draws : nat;
  db : DB;
  rec : RunRecorder;
  pq : PQ;
  completed : list Job;
  successes : Z;
  failures : Z;
  total_wait : Z;
  total_service : Z;
  total_turn : Z;
  clock_reads : nat;
  trace : list Event
}.

Definition set_rng_draws (s : State) (v : nat) : State :=
  {| rng_draws := v; db := db s; rec := rec s; pq := pq s;
     completed := completed s; successes := successes s;
     failures := failures s; total_wait := total_wait s;
     total_service := total_service s; total_turn := total_turn s;
     clock_reads := clock_reads s; trace := trace s |}.

Definition set_db (s : State) (v : DB) : State :=
  {| rng_draws := rng_draws s; db := v; rec := rec s; pq := pq s;
     completed := completed s; successes := successes s;
     failures := failures s; total_wait := total_wait s;
     total_service := total_service s; total_turn := total_turn s;
     clock_reads := clock_reads s; trace := trace s |}.

Definition set_rec (s : State) (v : RunRecorder) : State :=
  {| rng_draws := rng_draws s; db := db s; rec := v; pq := pq s;
     completed := completed s; successes := successes s;
     failures := failures s; total_wait := total_wait s;
     total_service := total_service s; total_turn := total_turn s;
     clock_reads := clock_reads s; trace := trace s |}.

Definition set_pq (s : State) (v : PQ) : State :=
  {| rng_draws := rng_draws s; db := db s; rec := rec s; pq := v;
     completed := completed s; successes := successes s;
     failures := failures s; total_wait := total_wait s;
     total_service := total_service s; total_turn := total_turn s;
     clock_reads := clock_reads s; trace := trace s |}.

Definition set_completed (s : State) (v : list Job) : State :=
  {| rng_draws := rng_draws s; db := db s; rec := rec s; pq := pq s;
     completed := v; successes := successes s; failures := failures s;
     total_wait := total_wait s; total_service := total_service s;
     total_turn := total_turn s; clock_reads := clock_reads s;
     trace := trace s |}.

Definition set_successes (s : State) (v : Z) : State :=
  {| rng_draws := rng_draws s; db := db s; rec := rec s; pq := pq s;
     completed := completed s; successes := v; failures := failures s;
     total_wait := total_wait s; total_service := total_service s;
     total_turn := total_turn s; clock_reads := clock_reads s;
     trace := trace s |}.

Definition set_failures (s : State) (v : Z) : State :=
  {| rng_draws := rng_draws s; db := db s; rec := rec s; pq := pq s;
     completed := completed s; successes := successes s; failures := v;
     total_wait := total_wait s; total_service := total_service s;
     total_turn := total_turn s; clock_reads := clock_reads s;
     trace := trace s |}.

Definition set_total_wait (s : State) (v : Z) : State :=
  {| rng_draws := rng_draws s; db := db s; rec := rec s; pq := pq s;
     completed := completed s; successes := successes s;
     failures := failures s; total_wait := v;
     total_service := total_service s; total_turn := total_turn s;
     clock_reads := clock_reads s; trace := trace s |}.

Definition set_total_service (s : State) (v : Z) : State :=
  {| rng_draws := rng_draws s; db := db s; rec := rec s; pq := pq s;
     completed := completed s; successes := successes s;
     failures := failures s; total_wait := total_wait s; total_service := v;
     total_turn := total_turn s; clock_reads := clock_reads s;
     trace := trace s |}.

Definition set_total_turn (s : State) (v : Z) : State :=
  {| rng_draws := rng_draws s; db := db s; rec := rec s; pq := pq s;
     completed := completed s; successes := successes s;
     failures := failures s; total_wait := total_wait s;
     total_service := total_service s; total_turn := v;
     clock_reads := clock_reads s; trace := trace s |}.

Definition set_clock_reads (s : State) (v : nat) : State :=
  {| rng_draws := rng_draws s; db := db s; rec := rec s; pq := pq s;
     completed := completed s; successes := successes s;
     failures := failures s; total_wait := total_wait s;
     total_service := total_service s; total_turn := total_turn s;
     clock_reads := v; trace := trace s |}.

Definition set_trace (s : State) (v : list Event) : State :=
  {| rng_draws := rng_draws s; db := db s; rec := rec s; pq := pq s;
     completed := completed s; successes := successes s;
     failures := failures s; total_wait := total_wait s;
     total_service := total_service s; total_turn := total_turn s;
     clock_reads := clock_reads s; trace := v |}.

(* ------------------------------------------------------------------ *)
(** ** Clock, sleeps and console *)

Definition Clock_now (o : Oracle) (s : State) : Z * State :=
  (steady_ns o (clock_reads s), set_clock_reads s (S (clock_reads s))).

(** [duration_cast<Ms>] truncates towards zero. *)
Definition now_ms (o : Oracle) (s : State) : Z * State :=
  let '(t, s) := Clock_now o s in (Z.quot t 1000000, s).

Definition emit (e : Event) (s : State) : State :=
  set_trace s (trace s ++ [e]).

Definition sleep_for (ms : Z) (s : State) : State := emit (Sleep ms) s.

Definition log_console (j : Job) (s : State) : State := emit (LogJob j) s.

(* ------------------------------------------------------------------ *)
(** ** [RNG] *)

(** One call of a distribution on [gen]. *)
Definition next_draw (o : Oracle) (s : State) : Draw * State :=
  (entropy o (rng_draws s), set_rng_draws s (S (rng_draws s))).

(** Library model.  [std::uniform_int_distribution<int>{lo, hi}] returns a
    value of [[lo, hi]]; the word is reduced into that interval. *)
Definition uniform_int (lo hi w : Z) : Z := lo + w mod (hi - lo + 1).

(** [std::round]: to the nearest integer, halves away from zero. *)
Definition round_half_away (x : Q) : Z :=
  if Qle_bool 0 x then Qfloor (x + (1 # 2)) else Qceiling (x - (1 # 2)).

Definition Qlt_bool (x y : Q) : bool := negb (Qle_bool y x).

(** [RNG::service_ms].  [service_ms_norm] is [normal_distribution(mean_ms,
    stddev_ms)]: a standard normal variate scaled and shifted. *)
Definition rng_service_ms (a : Args) (o : Oracle) (s : State) : Z * State :=
  let '(d, s) := next_draw o s in
  let x := (normal01 d * inject_Z (args_stddev_ms a)
            + inject_Z (args_mean_ms a))%Q in
  (double_to_int (round_half_away (Qmax 30 x)), s).

(** [RNG::priority]. *)
Definition rng_priority (o : Oracle) (s : State) : Z * State :=
  let '(d, s) := next_draw o s in (uniform_int 1 10 (word d), s).

(** The probability [p] of [RNG::should_fail], over the rationals.  The code
    computes it in [double], where the value at attempt 3 is
    0.020000000000000018 and not 0.02; what is stated of [p] below holds of
    both: its bounds, its monotonicity and its value from attempt 4 on. *)
Definition failure_probability (att : Z) : Q :=
  Qmax (2 # 100) ((20 # 100) - (6 # 100) * inject_Z att)%Q.

(** [RNG::should_fail]: a Bernoulli trial of parameter [p]. *)
Definition rng_should_fail (o : Oracle) (att : Z) (s : State) : bool * State :=
  let '(d, s) := next_draw o s in
  (Qlt_bool (canonical d) (failure_probability att), s).

(* ------------------------------------------------------------------ *)
(** ** [RunRecorder] *)

Definition rec_begin (o : Oracle) (s : State) : State :=
  let '(t, s) := now_ms o s in
  set_rec s {| run_start_ms := t; run_end_ms := run_end_ms (rec s);
               run_id := run_id (rec s) |}.

Definition rec_end (o : Oracle) (s : State) : State :=
  let '(t, s) := now_ms o s in
  set_rec s {| run_start_ms := run_start_ms (rec s); run_end_ms := t;
               run_id := run_id (rec s) |}.

(** The row that [record_job] binds for [j]: column 1 is the member [run_id]
    of the recorder at the time of the call. *)
Definition job_row (key rid : Z) (j : Job) : JobRow :=
  {| j_job_id := key; j_run_id := rid; j_ext_id := ext_id j;
     j_priority := priority j; j_attempt := attempt j;
     j_status := status j; j_fail_reason := fail_reason j;
     j_enqueue_ts := enqueue_ts j;
     j_start_ts := value_or (start_ts j) 0;
     j_end_ts := value_or (end_ts j) 0;
     j_wait_ms := wait_ms j; j_service_ms := service_ms j;
     j_turnaround_ms := turnaround_ms j |}.

Definition record_job (j : Job) (s : State) : State :=
  let d := db s in
  let key := next_rowid (jobs_seq d) (map j_job_id (jobs d)) in
  set_db s {| runs := runs d; runs_seq := runs_seq d;
              jobs := jobs d ++ [job_row key (run_id (rec s)) j];
              jobs_seq := key |}.

Definition record_run_summary (total succ fail : Z)
    (avg_wait avg_service avg_turn throughput : Q) (s : State) : State :=
  let d := db s in
  let key := next_rowid (runs_seq d) (map r_run_id (runs d)) in
  let row :=
    {| r_run_id := key; r_started_at := run_start_ms (rec s);
       r_finished_at := run_end_ms (rec s); r_total_jobs := total;
       r_success_jobs := succ; r_failed_jobs := fail;
       r_avg_wait_ms := avg_wait; r_avg_service_ms := avg_service;
       r_avg_turnaround_ms := avg_turn;
       r_throughput_jobs_per_s := throughput |} in
  let s := set_db s {| runs := runs d ++ [row]; runs_seq := key;
                       jobs := jobs d; jobs_seq := jobs_seq d |} in
  set_rec s {| run_start_ms := run_start_ms (rec s);
               run_end_ms := run_end_ms (rec s);
               run_id := to_int key |}.

(* ------------------------------------------------------------------ *)
(** ** [Dispatcher] *)

(** The constructor: [rng(a.mean_ms, a.stddev_ms)], [db(a.db)], [rec(db)],
    an empty queue and an empty completed set.  The database is taken to
    open and the two statements to prepare. *)
Definition Dispatcher_new (a : Args) (o : Oracle) (s : State) : State :=
  {| rng_draws := 0; db := disk o (args_db a);
     rec := {| run_start_ms := 0; run_end_ms := 0; run_id := 0 |};
     pq := []; completed := [];
     successes := 0; failures := 0;
     total_wait := 0; total_service := 0; total_turn := 0;
     clock_reads := clock_reads s; trace := trace s |}.

(** The state in which [main] starts. *)
Definition boot : State :=
  {| rng_draws := 0;
     db := {| runs := []; runs_seq := 0; jobs := []; jobs_seq := 0 |};
     rec := {| run_start_ms := 0; run_end_ms := 0; run_id := 0 |};
     pq := []; completed := [];
     successes := 0; failures := 0;
     total_wait := 0; total_service := 0; total_turn := 0;
     clock_reads := 0; trace := [] |}.

(** The body of the loop of [seed_jobs], for [i], [i+1], ...: [n] is the
    number of iterations left.  The loop [for (i = 1; i <= args.jobs; ++i)]
    makes [args.jobs] iterations, none when [args.jobs <= 0], as long as
    [args.jobs] is below [INT_MAX]: this is the loop on these inputs.  The
    loop with its counter as the [int] that it is, for every [args.jobs],
    is [seed_loop_int] below. *)
Fixpoint seed_loop (a : Args) (o : Oracle) (t0 : Z) (n : nat) (i : Z)
    (s : State) : State :=
  match n with
  | O => s
  | S n' =>
      let '(p, s) := rng_priority o s in
      let j := new_job i p (args_max_retries a) (t0 + i) in
      seed_loop a o t0 n' (i + 1) (set_pq s (pq_push j (pq s)))
  end.

Definition seed_jobs (a : Args) (o : Oracle) (s : State) : State :=
  let '(t0, s) := now_ms o s in
  seed_loop a o t0 (Z.to_nat (args_jobs a)) 1 s.

Definition maybe_backoff (j : Job) (s : State) : State :=
  if attempt j =? 0 then s
  else let backoff := shl_int 100 (attempt j - 1) in
       sleep_for backoff s.

(** One iteration of [while (!pq.empty())], from the backoff to the second
    time stamp: the job as it stands before the test of [fail], the outcome
    of [should_fail], and the state. *)
Definition attempt_job (a : Args) (o : Oracle) (j : Job) (s : State)
  : Job * bool * State :=
  let s := maybe_backoff j s in
  let '(t, s) := now_ms o s in
  let j := set_start_ts j t in
  let j := set_status j "RUNNING" in
  let j := set_wait_ms j (to_int (t - enqueue_ts j)) in
  let '(svc, s) := rng_service_ms a o s in
  let j := set_service_ms j svc in
  let s := sleep_for svc s in
  let '(fail, s) := rng_should_fail o (attempt j) s in
  let '(t', s) := now_ms o s in
  let j := set_end_ts j t' in
  let j := set_turnaround_ms j (to_int (t' - enqueue_ts j)) in
  (j, fail, s).

(** The branch [if (!fail)]. *)
Definition on_success (j : Job) (s : State) : State :=
  let j := set_status j "SUCCESS" in
  let s := set_successes s (successes s + 1) in
  let s := set_total_wait s (total_wait s + wait_ms j) in
  let s := set_total_service s (total_service s + service_ms j) in
  let s := set_total_turn s (total_turn s + turnaround_ms j) in
  let s := record_job j s in
  let s := set_completed s (completed s ++ [j]) in
  log_console j s.

(** The branch [else]. *)
Definition on_failure (o : Oracle) (j : Job) (s : State) : State :=
  let j := set_status j "FAILED" in
  let j := set_fail_reason j "SIMULATED_FAILURE" in
  let s := record_job j s in
  let s := log_console j s in
  if attempt j <? max_retries j then
    let j := set_attempt j (attempt j + 1) in
    let j := set_status j "PENDING" in
    let j := set_priority j (Z.min 10 (priority j + 1)) in
    let '(t, s) := now_ms o s in
    let j := set_enqueue_ts j t in
    set_pq s (pq_push j (pq s))
  else
    let s := set_failures s (failures s + 1) in
    set_completed s (completed s ++ [j]).

(** The body of [while (!pq.empty())]. *)
Definition loop_body (a : Args) (o : Oracle) (s : State) : State :=
  match pq_top (pq s) with
  | None => s
  | Some j =>
      let s := set_pq s (pq_pop (pq s)) in
      let '(j, fail, s) := attempt_job a o j s in
      if negb fail then on_success j s else on_failure o j s
  end.

(** [while (!pq.empty()) body]: [None] when [fuel] iterations do not empty
    the queue. *)
Fixpoint dispatch_loop (a : Args) (o : Oracle) (fuel : nat) (s : State)
  : option State :=
  if pq_empty (pq s) then Some s
  else match fuel with
       | O => None
       | S fuel' => dispatch_loop a o fuel' (loop_body a o s)
       end.

(** [Dispatcher::run] up to the loop: [wall_start] and the state in which
    the counters and sums have just been initialised. *)
Definition run_prologue (a : Args) (o : Oracle) (s : State) : Z * State :=
  let s := rec_begin o s in
  let s := seed_jobs a o s in
  let '(wall_start, s) := Clock_now o s in
  let s := set_successes s 0 in
  let s := set_failures s 0 in
  let s := set_total_wait s 0 in
  let s := set_total_service s 0 in
  let s := set_total_turn s 0 in
  (wall_start, s).

Definition average (sum total : Z) : Q :=
  if negb (total =? 0) then (inject_Z sum / inject_Z total)%Q else 0%Q.

(** [Dispatcher::run] after the loop. *)
Definition run_epilogue (o : Oracle) (wall_start : Z) (s : State) : State :=
  let s := rec_end o s in
  let '(wall_end, s) := Clock_now o s in
  let seconds := Qmax (1 # 1000) ((wall_end - wall_start) # 1000000000) in
  let total := successes s + failures s in
  let avg_wait := average (total_wait s) total in
  let avg_service := average (total_service s) total in
  let avg_turn := average (total_turn s) total in
  let throughput :=
    if Qlt_bool 0 seconds then (inject_Z (successes s) / seconds)%Q
    else 0%Q in
  let s := record_run_summary total (successes s) (failures s)
             avg_wait avg_service avg_turn throughput s in
  emit (LogSummary total (successes s) (failures s)
          avg_wait avg_service avg_turn throughput) s.

Definition run (fuel : nat) (a : Args) (o : Oracle) (s : State)
  : option State :=
  let '(wall_start, s) := run_prologue a o s in
  match dispatch_loop a o fuel s with
  | Some s => Some (run_epilogue o wall_start s)
  | None => None
  end.

(** [main]: [None] when [std::stoi] throws or [fuel] is too small. *)
Definition main (fuel : nat) (argv : list string) (o : Oracle)
  : option State :=
  match parse_args argv with
  | Some a =>
      let s := emit (LogStart a) boot in
      run fuel a o (Dispatcher_new a o s)
  | None => None
  end.

(** [seed_jobs] with the counter [i] of its loop as the [int] that it is.
    The loop is left when [i <= args.jobs] fails.  [++i] on [INT_MAX]
    overflows, which C++ leaves undefined and which wraps to [INT_MIN] on
    two's complement hardware: the counter wraps.  [None] when [fuel]
    iterations do not end the loop. *)
Fixpoint seed_loop_int (a : Args) (o : Oracle) (t0 : Z) (fuel : nat) (i : Z)
    (s : State) : option State :=
  if i <=? args_jobs a then
    match fuel with
    | O => None
    | S fuel' =>
        let '(p, s) := rng_priority o s in
        let j := new_job i p (args_max_retries a) (t0 + i) in
        seed_loop_int a o t0 fuel' (to_int (i + 1))
          (set_pq s (pq_push j (pq s)))
    end
  else Some s.

Definition seed_jobs_int (fuel : nat) (a : Args) (o : Oracle) (s : State)
  : option State :=
  let '(t0, s) := now_ms o s in
  seed_loop_int a o t0 fuel 1 s.

(** [Dispatcher::run] and [main] with that seeding loop: [None] when [fuel]
    iterations do not end the seeding loop or the dispatch loop. *)
Definition run_int (fuel : nat) (a : Args) (o : Oracle) (s : State)
  : option State :=
  let s := rec_begin o s in
  match seed_jobs_int fuel a o s with
  | Some s =>
      let '(wall_start, s) := Clock_now o s in
      let s := set_successes s 0 in
      let s := set_failures s 0 in
      let s := set_total_wait s 0 in
      let s := set_total_service s 0 in
      let s := set_total_turn s 0 in
      match dispatch_loop a o fuel s with
      | Some s => Some (run_epilogue o wall_start s)
      | None => None
      end
  | None => None
  end.

Definition main_int (fuel : nat) (argv : list string) (o : Oracle)
  : option State :=
  match parse_args argv with
  | Some a =>
      let s := emit (LogStart a) boot in
      run_int fuel a o (Dispatcher_new a o s)
  | None => None
  end.

(** Iterations that a queue can still need: every pending job is attempted
    once, and once more for each retry that it has left. *)
Definition budget (j : Job) : nat :=
  S (Z.to_nat (max_retries j - attempt j)).

Definition queue_budget (q : PQ) : nat :=
  fold_right (fun j n => (budget j + n)%nat) O q.

(** The states at the head of the loop of [run]. *)
Inductive at_loop_head (a : Args) (o : Oracle) (s0 : State) : State -> Prop :=
| head_first : at_loop_head a o s0 (snd (run_prologue a o s0))
| head_next s :
    at_loop_head a o s0 s ->
    pq_empty (pq s) = false ->
    at_loop_head a o s0 (loop_body a o s).

(* ------------------------------------------------------------------ *)
(** ** Sample inputs *)

Definition empty_db : DB :=
  {| runs := []; runs_seq := 0; jobs := []; jobs_seq := 0 |}.

(** A clock that starts at one second and advances by 50 ms from one
    reading to the next. *)
Definition sample_clock (n : nat) : Z := (1000 + 50 * Z.of_nat n) * 1000000.

(** Service times equal to the mean, and a Bernoulli trial that fails at the
    calls [n] of the distributions for which [fails n] holds; the database
    file is new. *)
Definition sample_oracle (fails : nat -> bool) : Oracle :=
  {| steady_ns := sample_clock;
     entropy := fun n =>
       {| word := Z.of_nat n; normal01 := 0;
          canonical := if fails n then 0 else 99 # 100 |};
     disk := fun _ => empty_db |}.

(** The same with normal samples one standard deviation above the mean and
    no failing trial. *)
Definition wide_oracle : Oracle :=
  {| steady_ns := sample_clock;
     entropy := fun n =>
       {| word := Z.of_nat n; normal01 := 1; canonical := 99 # 100 |};
     disk := fun _ => empty_db |}.

(** [--jobs n --max-retries r]. *)
Definition sample_args (n r : Z) : Args :=
  set_args_max_retries (set_args_jobs default_args n) r.

Definition sample_job (id prio enq : Z) : Job := new_job id prio 2 enq.

(** Three pending jobs: the second and the third share the highest priority
    and the second was enqueued first. *)
Definition sample_queue : PQ :=
  [sample_job 1 3 100; sample_job 2 7 101; sample_job 3 7 102].





(* ------------------------------------------------------------------ *)
(** ** Vocabulary of the properties *)

(** [m] is served no later than [x]: a higher priority, or the same priority
    and an enqueue time stamp that is not larger. *)
Definition served_first (m x : Job) : Prop :=
  priority x < priority m \/
  (priority x = priority m /\ enqueue_ts m <= enqueue_ts x).






(** The durations of the sleeps of a trace, in order. *)
Definition sleeps (t : list Event) : list Z :=
  flat_map (fun e => match e with Sleep ms => [ms] | _ => [] end) t.

(** The external identifiers that [seed_jobs] hands out: [1, ..., n]. *)
Definition ids (n : Z) : list Z := map Z.of_nat (seq 1 (Z.to_nat n)).

Definition has_status (st : string) (j : Job) : bool :=
  String.eqb (status j) st.

Definition count_status (st : string) (l : list Job) : Z :=
  Z.of_nat (List.length (filter (has_status st) l)).

Definition sum_over (f : Job -> Z) (l : list Job) : Z :=
  fold_right (fun j acc => f j + acc) 0 l.

(** A job waiting in the queue: it has never failed, or it has failed
    [attempt] times and was allowed each of these retries. *)
Definition pending_ok (a : Args) (j : Job) : Prop :=
  max_retries j = args_max_retries a /\
  status j = "PENDING" /\
  1 <= priority j <= 10 /\
  (attempt j = 0 /\ fail_reason j = "" \/
   0 < attempt j <= max_retries j /\ fail_reason j = "SIMULATED_FAILURE").

(** A job of the completed set. *)
Definition terminal_ok (a : Args) (j : Job) : Prop :=
  max_retries j = args_max_retries a /\
  1 <= priority j <= 10 /\
  (attempt j = 0 \/ 0 < attempt j <= max_retries j) /\
  (status j = "SUCCESS" \/
   status j = "FAILED" /\ max_retries j <= attempt j).

(** A row of the table [jobs] written by [record_job] during a run. *)
Definition row_ok (r : JobRow) : Prop :=
  j_run_id r = 0 /\
  (j_status r = "SUCCESS" \/ j_status r = "FAILED") /\
  (j_status r = "FAILED" -> j_fail_reason r = "SIMULATED_FAILURE") /\
  (j_attempt r = 0 -> j_status r = "SUCCESS" -> j_fail_reason r = "") /\
  (0 < j_attempt r -> j_fail_reason r = "SIMULATED_FAILURE").

(** What holds each time the loop of [run] tests its condition, in a run
    that started on the database [d0]. *)
Record loop_inv (a : Args) (d0 : DB) (s : State) : Prop := {
  inv_pending : Forall (pending_ok a) (pq s);
  inv_terminal : Forall (terminal_ok a) (completed s);
  inv_ids : Permutation (map ext_id (pq s ++ completed s)) (ids (args_jobs a));
  inv_successes : successes s = count_status "SUCCESS" (completed s);
  inv_failures : failures s = count_status "FAILED" (completed s);
  inv_wait :
    total_wait s
    = sum_over wait_ms (filter (has_status "SUCCESS") (completed s));
  inv_service :
    total_service s
    = sum_over service_ms (filter (has_status "SUCCESS") (completed s));
  inv_turn :
    total_turn s
    = sum_over turnaround_ms (filter (has_status "SUCCESS") (completed s));
  inv_run_id : run_id (rec s) = 0;
  inv_runs : runs (db s) = runs d0 /\ runs_seq (db s) = runs_seq d0;
  inv_rows : exists rows, jobs (db s) = jobs d0 ++ rows /\ Forall row_ok rows
}.

(* ------------------------------------------------------------------ *)
(** ** Vocabulary of the further properties *)

(** The five option names that [parse_args] knows. *)
Definition is_option (k : string) : bool :=
  String.eqb k "--jobs" || String.eqb k "--max-retries"
  || String.eqb k "--mean-ms" || String.eqb k "--stddev-ms"
  || String.eqb k "--db".


(** The job that [seed_jobs] pushes for the identifier [i], when the seeding
    started at [t0] and the priority comes from call number [d] of the
    distributions. *)
Definition seeded_job (a : Args) (o : Oracle) (t0 : Z) (d : nat) (i : Z)
  : Job :=
  new_job i (uniform_int 1 10 (word (entropy o d))) (args_max_retries a)
    (t0 + i).






(** No normal sample of the run exceeds [INT_MAX]: the rounded service
    times fit an [int]. *)
Definition samples_fit (a : Args) (o : Oracle) : Prop :=
  forall n,
    (normal01 (entropy o n) * inject_Z (args_stddev_ms a)
     + inject_Z (args_mean_ms a) <= inject_Z INT_MAX)%Q.








(* ================================================================== *)
(** * Properties *)

(** Arithmetic that the proofs treat as a whole. *)
Arguments to_int : simpl never.
Arguments shl_int : simpl never.
Arguments double_to_int : simpl never.
Arguments uniform_int : simpl never.
Arguments round_half_away : simpl never.
Arguments failure_probability : simpl never.
Arguments Qlt_bool : simpl never.
Arguments next_rowid : simpl never.
Arguments average : simpl never.
Arguments sum_over : simpl never.
Arguments count_status : simpl never.
Arguments budget : simpl never.
Arguments queue_budget : simpl never.

(** ** Machine integers *)

Lemma to_int_small x : INT_MIN <= x <= INT_MAX -> to_int x = x.
Proof.
  unfold to_int, wrap, INT_MIN, INT_MAX. intros H.
  change (2 ^ (32 - 1)) with 2147483648 in *.
  change (2 ^ 31) with 2147483648 in *.
  change (2 ^ 32) with 4294967296.
  rewrite Z.mod_small by lia. lia.
Qed.

Lemma to_int_range x : INT_MIN <= to_int x <= INT_MAX.
Proof.
  unfold to_int, wrap, INT_MIN, INT_MAX.
  change (2 ^ (32 - 1)) with 2147483648.
  change (2 ^ 31) with 2147483648.
  change (2 ^ 32) with 4294967296.
  pose proof (Z.mod_pos_bound (x + 2147483648) 4294967296 ltac:(lia)). lia.
Qed.

(** ** The scheduling queue *)

Lemma JobCmp_true a b :
  JobCmp a b = true <->
  priority a < priority b \/
  (priority a = priority b /\ enqueue_ts b < enqueue_ts a).
Proof.
  unfold JobCmp.
  destruct (Z.eqb_spec (priority a) (priority b)) as [E | E]; simpl.
  - rewrite Z.gtb_ltb, Z.ltb_lt. lia.
  - rewrite Z.ltb_lt. lia.
Qed.

Lemma JobCmp_false a b : JobCmp a b = false -> served_first a b.
Proof.
  intros H. unfold served_first.
  destruct (Z.lt_trichotomy (priority a) (priority b)) as [L | [L | L]].
  - assert (JobCmp a b = true) by (apply JobCmp_true; lia). congruence.
  - destruct (Z_le_gt_dec (enqueue_ts a) (enqueue_ts b)); [lia |].
    assert (JobCmp a b = true) by (apply JobCmp_true; lia). congruence.
  - lia.
Qed.

Lemma served_first_refl a : served_first a a.
Proof. unfold served_first. lia. Qed.

Lemma served_first_trans a b c :
  served_first a b -> served_first b c -> served_first a c.
Proof. unfold served_first. lia. Qed.

Lemma pq_extract_perm rest : forall best m r,
  pq_extract best rest = (m, r) -> Permutation (best :: rest) (m :: r).
Proof.
  induction rest as [| x xs IH]; intros best m r H; simpl in H.
  - inversion H. apply Permutation_refl.
  - destruct (JobCmp best x).
    + destruct (pq_extract x xs) as [m' r'] eqn:E. inversion H; subst.
      apply IH in E.
      apply perm_trans with (best :: m :: r'); [| apply perm_swap].
      apply perm_skip. exact E.
    + destruct (pq_extract best xs) as [m' r'] eqn:E. inversion H; subst.
      apply IH in E.
      apply perm_trans with (x :: best :: xs); [apply perm_swap |].
      apply perm_trans with (x :: m :: r'); [| apply perm_swap].
      apply perm_skip. exact E.
Qed.

Lemma pq_extract_max rest : forall best m r,
  pq_extract best rest = (m, r) ->
  served_first m best /\ Forall (served_first m) rest.
Proof.
  induction rest as [| x xs IH]; intros best m r H; simpl in H.
  - inversion H; subst. split; [apply served_first_refl | constructor].
  - destruct (JobCmp best x) eqn:C.
    + destruct (pq_extract x xs) as [m' r'] eqn:E. inversion H; subst.
      destruct (IH _ _ _ E) as [Hx Hxs].
      assert (Hb : served_first x best).
      { apply JobCmp_true in C. unfold served_first. lia. }
      split; [eapply served_first_trans; eauto |].
      constructor; assumption.
    + destruct (pq_extract best xs) as [m' r'] eqn:E. inversion H; subst.
      destruct (IH _ _ _ E) as [Hb Hxs].
      split; [assumption |].
      constructor; [| assumption].
      eapply served_first_trans; [exact Hb |]. apply JobCmp_false, C.
Qed.

Lemma pq_top_pop_perm q j :
  pq_top q = Some j -> Permutation q (j :: pq_pop q).
Proof.
  destruct q as [| x xs]; simpl; [discriminate |].
  intros H. inversion H; subst.
  apply pq_extract_perm. destruct (pq_extract x xs); reflexivity.
Qed.

Lemma pq_top_served_first q j :
  pq_top q = Some j -> Forall (served_first j) q.
Proof.
  destruct q as [| x xs]; simpl; [discriminate |].
  intros H. inversion H; subst.
  destruct (pq_extract x xs) as [m r] eqn:E.
  destruct (pq_extract_max _ _ _ _ E). simpl. constructor; assumption.
Qed.

Lemma pq_top_nonempty q :
  pq_empty q = false -> exists j, pq_top q = Some j.
Proof.
  destruct q as [| x xs]; simpl; [discriminate |]. eauto.
Qed.

Lemma pq_top_In q j : pq_top q = Some j -> In j q.
Proof.
  intros H. apply pq_top_pop_perm in H.
  eapply Permutation_in; [apply Permutation_sym, H | left; reflexivity].
Qed.

Example popMax_sample_queue :
  popMax sample_queue
  = Some (sample_job 2 7 101, [sample_job 1 3 100; sample_job 3 7 102]).
Proof. reflexivity. Qed.

(** C5.  On every non-empty queue [popMax] returns a pending job and the
    queue without it; no pending job has a higher priority than the job
    returned, and none of the same priority has a smaller enqueue time
    stamp. *)
Theorem popMax_highest_priority_then_earliest (q : PQ) :
  q <> [] ->
  exists j q',
    popMax q = Some (j, q') /\
    In j q /\
    Permutation q (j :: q') /\
    forall k, In k q ->
      priority k <= priority j /\
      (priority k = priority j -> enqueue_ts j <= enqueue_ts k).
Proof.
  intros Hq.
  destruct (pq_top_nonempty q) as [j Hj].
  { destruct q; [congruence | reflexivity]. }
  exists j, (pq_pop q). unfold popMax. rewrite Hj.
  split; [reflexivity |].
  split; [apply pq_top_In, Hj |].
  split; [apply pq_top_pop_perm, Hj |].
  intros k Hk.
  pose proof (pq_top_served_first q j Hj) as F.
  rewrite Forall_forall in F. specialize (F k Hk).
  unfold served_first in F. lia.
Qed.

(** ** One iteration of the dispatch loop *)

Lemma attempt_job_frame a o j s j1 fail s1 :
  attempt_job a o j s = (j1, fail, s1) ->
  (ext_id j1 = ext_id j /\ priority j1 = priority j /\
   attempt j1 = attempt j /\ max_retries j1 = max_retries j /\
   enqueue_ts j1 = enqueue_ts j /\ fail_reason j1 = fail_reason j) /\
  (pq s1 = pq s /\ completed s1 = completed s /\ db s1 = db s /\
   rec s1 = rec s /\ successes s1 = successes s /\
   failures s1 = failures s /\ total_wait s1 = total_wait s /\
   total_service s1 = total_service s /\ total_turn s1 = total_turn s).
Proof.
  intros H. unfold attempt_job, maybe_backoff in H.
  destruct (attempt j =? 0); cbn in H; inversion H; subst; cbn;
    repeat split; reflexivity.
Qed.

Lemma loop_body_unfold a o s j :
  pq_top (pq s) = Some j ->
  exists j1 fail s1,
    attempt_job a o j (set_pq s (pq_pop (pq s))) = (j1, fail, s1) /\
    loop_body a o s
    = if negb fail then on_success j1 s1 else on_failure o j1 s1.
Proof.
  intros T. unfold loop_body. rewrite T.
  destruct (attempt_job a o j (set_pq s (pq_pop (pq s))))
    as [[j1 fail] s1] eqn:E.
  exists j1, fail, s1. split; reflexivity.
Qed.

(** ** Counting lemmas *)

Lemma count_status_snoc st l j :
  count_status st (l ++ [j])
  = count_status st l + (if has_status st j then 1 else 0).
Proof.
  unfold count_status. rewrite filter_app, length_app. simpl.
  destruct (has_status st j); simpl; lia.
Qed.

Lemma count_status_cons st j l :
  count_status st (j :: l)
  = (if has_status st j then 1 else 0) + count_status st l.
Proof.
  unfold count_status. cbn [filter].
  destruct (has_status st j); cbn [List.length]; lia.
Qed.

Lemma sum_over_snoc f l j : sum_over f (l ++ [j]) = sum_over f l + f j.
Proof.
  unfold sum_over. induction l as [| x l IH]; simpl; [lia |].
  rewrite IH. lia.
Qed.

Lemma filter_snoc (p : Job -> bool) l j :
  filter p (l ++ [j]) = if p j then filter p l ++ [j] else filter p l.
Proof.
  rewrite filter_app. simpl. destruct (p j); [reflexivity |].
  apply app_nil_r.
Qed.

Lemma ids_to_completed q j rest c j' :
  Permutation q (j :: rest) -> ext_id j' = ext_id j ->
  Permutation (map ext_id (rest ++ c ++ [j'])) (map ext_id (q ++ c)).
Proof.
  intros P E. apply Permutation_sym.
  apply perm_trans with (map ext_id ((j :: rest) ++ c)).
  { apply Permutation_map, Permutation_app_tail, P. }
  rewrite !map_app. simpl. rewrite E.
  apply perm_trans with
    ((map ext_id rest ++ map ext_id c) ++ [ext_id j]).
  { apply Permutation_cons_append. }
  rewrite <- app_assoc. apply Permutation_refl.
Qed.

Lemma ids_requeued q j rest c j' :
  Permutation q (j :: rest) -> ext_id j' = ext_id j ->
  Permutation (map ext_id ((rest ++ [j']) ++ c)) (map ext_id (q ++ c)).
Proof.
  intros P E. apply Permutation_sym.
  apply perm_trans with (map ext_id ((j :: rest) ++ c)).
  { apply Permutation_map, Permutation_app_tail, P. }
  rewrite !map_app. simpl. rewrite E.
  apply (Permutation_app_tail (map ext_id c)
           (Permutation_cons_append (map ext_id rest) (ext_id j))).
Qed.

(** ** Seeding *)

Lemma uniform_int_1_10 w : 1 <= uniform_int 1 10 w <= 10.
Proof.
  unfold uniform_int. change (10 - 1 + 1) with 10.
  pose proof (Z.mod_pos_bound w 10 ltac:(lia)). lia.
Qed.

Lemma new_job_pending a i w t :
  pending_ok a (new_job i (uniform_int 1 10 w) (args_max_retries a) t).
Proof.
  pose proof (uniform_int_1_10 w) as H. revert H.
  generalize (uniform_int 1 10 w). intros p H.
  unfold pending_ok. simpl.
  repeat split; try lia. left. split; reflexivity.
Qed.

Lemma seed_loop_spec a o t0 n : forall i s,
  let s' := seed_loop a o t0 n i s in
  completed s' = completed s /\ db s' = db s /\ rec s' = rec s /\
  exists js,
    pq s' = pq s ++ js /\
    Forall (pending_ok a) js /\
    map ext_id js = map (fun k => i + Z.of_nat k) (seq 0 n).
Proof.
  induction n as [| n IH]; intros i s; simpl.
  - repeat split. exists []. rewrite app_nil_r. repeat split. constructor.
  - specialize (IH (i + 1)). cbv zeta in IH.
    match goal with
    | |- context [seed_loop a o t0 n (i + 1) ?st] =>
        destruct (IH st) as (Hc & Hd & Hr & js & Hq & Hj & He)
    end.
    rewrite Hc, Hd, Hr. repeat split.
    eexists (_ :: js). split; [| split].
    + rewrite Hq. cbn. unfold pq_push. rewrite <- app_assoc. reflexivity.
    + constructor; [apply new_job_pending | exact Hj].
    + simpl. rewrite He. f_equal; [lia |].
      rewrite <- seq_shift, map_map. apply map_ext. intros k. lia.
Qed.

Lemma ids_seq n :
  map (fun k => 1 + Z.of_nat k) (seq 0 (Z.to_nat n)) = ids n.
Proof.
  unfold ids. rewrite <- seq_shift, map_map. apply map_ext. intros k. lia.
Qed.

Lemma loop_inv_first a o w :
  loop_inv a (disk o (args_db a))
    (snd (run_prologue a o (Dispatcher_new a o w))).
Proof.
  unfold run_prologue, seed_jobs, rec_begin. cbn.
  match goal with
  | |- context [seed_loop a o ?t0 ?n 1 ?st] =>
      destruct (seed_loop_spec a o t0 n 1 st) as (Hc & Hd & Hr & js & Hq & Hj & He);
      set (s1 := seed_loop a o t0 n 1 st) in *
  end.
  cbn in Hc, Hd, Hr, Hq.
  constructor; cbn; rewrite ?Hc, ?Hd, ?Hr, ?Hq; cbn;
    try reflexivity.
  - exact Hj.
  - constructor.
  - rewrite app_nil_r, He. rewrite ids_seq. apply Permutation_refl.
  - split; reflexivity.
  - exists []. rewrite app_nil_r. split; [reflexivity | constructor].
Qed.

(** ** The loop invariant *)

Lemma Forall_snoc {A} (P : A -> Prop) l x :
  Forall P l -> P x -> Forall P (l ++ [x]).
Proof.
  intros Hl Hx. apply Forall_app. split; [exact Hl |].
  constructor; [exact Hx | constructor].
Qed.

Lemma rows_snoc d0 (rows : list JobRow) l r :
  l = jobs d0 ++ rows -> Forall row_ok rows -> row_ok r ->
  exists rows', l ++ [r] = jobs d0 ++ rows' /\ Forall row_ok rows'.
Proof.
  intros -> Hrows Hr. exists (rows ++ [r]).
  rewrite app_assoc. split; [reflexivity | apply Forall_snoc; assumption].
Qed.

Lemma loop_inv_next a o d0 s :
  loop_inv a d0 s -> pq_empty (pq s) = false ->
  loop_inv a d0 (loop_body a o s).
Proof.
  intros I Hne.
  destruct (pq_top_nonempty _ Hne) as [j T].
  destruct (loop_body_unfold a o s j T) as (j1 & fail & s1 & E & ->).
  destruct (attempt_job_frame _ _ _ _ _ _ _ E)
    as [(Fid & Fpr & Fat & Fmr & Fen & Ffr)
        (Fpq & Fco & Fdb & Frec & Fsu & Ffa & Fw & Fsv & Ft)].
  cbn in Fpq, Fco, Fdb, Frec, Fsu, Ffa, Fw, Fsv, Ft.
  pose proof (pq_top_pop_perm _ _ T) as P.
  destruct I as [Ipen Iter Iids Isu Ifa Iw Isv It Irid [Iruns Iseq]
                   (rows & Irows & Irok)].
  assert (Hj : pending_ok a j).
  { rewrite Forall_forall in Ipen. apply Ipen, pq_top_In, T. }
  assert (Hrest : Forall (pending_ok a) (pq_pop (pq s))).
  { eapply Forall_inv_tail, Permutation_Forall; [exact P | exact Ipen]. }
  destruct Hj as (Jmr & Jst & Jpr & Jat).
  destruct fail; simpl.
  - (* the attempt fails *)
    unfold on_failure. cbn.
    assert (Hrow : row_ok
              (job_row (next_rowid (jobs_seq (db s1)) (map j_job_id (jobs (db s1))))
                 (run_id (rec s1))
                 (set_fail_reason (set_status j1 "FAILED") "SIMULATED_FAILURE"))).
    { unfold row_ok. cbn. rewrite Frec, Irid.
      repeat split; auto; intros; discriminate. }
    rewrite Fdb, Frec in Hrow.
    destruct (attempt j1 <? max_retries j1) eqn:G; cbn.
    + (* retry *)
      apply Z.ltb_lt in G.
      constructor; cbn; rewrite ?Fpq, ?Fco, ?Fdb, ?Frec, ?Fsu, ?Ffa, ?Fw, ?Fsv, ?Ft;
        auto.
      * apply Forall_snoc; [exact Hrest |].
        unfold pending_ok. cbn. rewrite Fmr, Fpr, Fat.
        repeat split; try lia. right. split; [lia | reflexivity].
      * apply perm_trans with (map ext_id (pq s ++ completed s)); [| exact Iids].
        apply ids_requeued with (j := j); [exact P | cbn; exact Fid].
      * eapply rows_snoc; eauto.
    + (* terminal failure *)
      apply Z.ltb_ge in G.
      constructor; cbn; rewrite ?Fpq, ?Fco, ?Fdb, ?Frec, ?Fsu, ?Ffa, ?Fw, ?Fsv, ?Ft;
        auto.
      * apply Forall_snoc; [exact Iter |].
        unfold terminal_ok. cbn. rewrite Fmr, Fpr, Fat.
        repeat split; try lia. right. split; [reflexivity | lia].
      * apply perm_trans with (map ext_id (pq s ++ completed s)); [| exact Iids].
        apply ids_to_completed with (j := j); [exact P | cbn; exact Fid].
      * rewrite count_status_snoc. cbn. lia.
      * rewrite count_status_snoc. cbn. lia.
      * rewrite filter_snoc. cbn. exact Iw.
      * rewrite filter_snoc. cbn. exact Isv.
      * rewrite filter_snoc. cbn. exact It.
      * eapply rows_snoc; eauto.
  - (* the attempt succeeds *)
    unfold on_success. cbn.
    constructor; cbn; rewrite ?Fpq, ?Fco, ?Fdb, ?Frec, ?Fsu, ?Ffa, ?Fw, ?Fsv, ?Ft;
      auto.
    + apply Forall_snoc; [exact Iter |].
      unfold terminal_ok. cbn. rewrite Fmr, Fpr, Fat.
      repeat split; try lia. left. reflexivity.
    + apply perm_trans with (map ext_id (pq s ++ completed s)); [| exact Iids].
      apply ids_to_completed with (j := j); [exact P | cbn; exact Fid].
    + rewrite count_status_snoc. cbn. lia.
    + rewrite count_status_snoc. cbn. lia.
    + rewrite filter_snoc. cbn. rewrite sum_over_snoc. cbn. lia.
    + rewrite filter_snoc. cbn. rewrite sum_over_snoc. cbn. lia.
    + rewrite filter_snoc. cbn. rewrite sum_over_snoc. cbn. lia.
    + eapply rows_snoc; eauto.
      unfold row_ok. cbn. rewrite Irid, Ffr, Fat.
      repeat split; auto; intros; try discriminate.
      * destruct Jat as [[_ ?] | [? _]]; [assumption | lia].
      * destruct Jat as [[? _] | [_ ?]]; [lia | assumption].
Qed.

Lemma loop_inv_at_head a o w s :
  at_loop_head a o (Dispatcher_new a o w) s ->
  loop_inv a (disk o (args_db a)) s.
Proof.
  induction 1 as [| s H IH Hne].
  - apply loop_inv_first.
  - apply loop_inv_next; assumption.
Qed.

(** ** Termination of the dispatch loop *)

Lemma queue_budget_app q1 q2 :
  queue_budget (q1 ++ q2) = (queue_budget q1 + queue_budget q2)%nat.
Proof.
  induction q1 as [| x q1 IH]; [reflexivity |].
  change (queue_budget ((x :: q1) ++ q2))
    with (budget x + queue_budget (q1 ++ q2))%nat.
  change (queue_budget (x :: q1)) with (budget x + queue_budget q1)%nat.
  rewrite IH. apply Nat.add_assoc.
Qed.

Lemma queue_budget_single j : queue_budget [j] = budget j.
Proof. unfold queue_budget. cbn [fold_right]. apply Nat.add_0_r. Qed.

Lemma queue_budget_perm q1 q2 :
  Permutation q1 q2 -> queue_budget q1 = queue_budget q2.
Proof.
  unfold queue_budget.
  induction 1 as [| x l l' _ IH | x y l | l l' l'' _ IH1 _ IH2];
    cbn [fold_right]; lia.
Qed.

Lemma loop_body_budget a o s :
  pq_empty (pq s) = false ->
  (queue_budget (pq (loop_body a o s)) < queue_budget (pq s))%nat.
Proof.
  intros Hne.
  destruct (pq_top_nonempty _ Hne) as [j T].
  destruct (loop_body_unfold a o s j T) as (j1 & fail & s1 & E & ->).
  destruct (attempt_job_frame _ _ _ _ _ _ _ E)
    as [(_ & _ & Fat & Fmr & _) (Fpq & _)].
  cbn in Fpq.
  rewrite (queue_budget_perm _ _ (pq_top_pop_perm _ _ T)).
  change (queue_budget (j :: pq_pop (pq s)))
    with (budget j + queue_budget (pq_pop (pq s)))%nat.
  assert (0 < budget j)%nat by (unfold budget; lia).
  destruct fail; simpl.
  - unfold on_failure. cbn.
    destruct (attempt j1 <? max_retries j1) eqn:G; cbn; rewrite Fpq.
    + apply Z.ltb_lt in G. unfold pq_push.
      rewrite queue_budget_app, queue_budget_single. unfold budget. cbn.
      rewrite Fat, Fmr.
      assert (Z.to_nat (max_retries j - (attempt j + 1))
              < Z.to_nat (max_retries j - attempt j))%nat by lia.
      lia.
    + lia.
  - unfold on_success. cbn. rewrite Fpq. lia.
Qed.

Lemma dispatch_loop_enough a o : forall fuel s,
  (queue_budget (pq s) <= fuel)%nat ->
  exists s', dispatch_loop a o fuel s = Some s'.
Proof.
  induction fuel as [| fuel IH]; intros s Hb; simpl.
  - destruct (pq_empty (pq s)) eqn:Hne; [eauto |].
    pose proof (loop_body_budget a o s Hne). lia.
  - destruct (pq_empty (pq s)) eqn:Hne; [eauto |].
    apply IH. pose proof (loop_body_budget a o s Hne). lia.
Qed.

Lemma dispatch_loop_more_fuel a o : forall fuel s s' k,
  dispatch_loop a o fuel s = Some s' ->
  dispatch_loop a o (fuel + k) s = Some s'.
Proof.
  induction fuel as [| fuel IH]; intros s s' k H; simpl in H.
  - destruct (pq_empty (pq s)) eqn:Hne; [| discriminate].
    destruct k; simpl; rewrite Hne; exact H.
  - simpl. destruct (pq_empty (pq s)) eqn:Hne; [exact H |].
    apply IH, H.
Qed.

Lemma dispatch_loop_exit a o s0 : forall fuel s s',
  at_loop_head a o s0 s ->
  dispatch_loop a o fuel s = Some s' ->
  at_loop_head a o s0 s' /\ pq s' = [].
Proof.
  induction fuel as [| fuel IH]; intros s s' Hs H; simpl in H.
  - destruct (pq_empty (pq s)) eqn:Hne; [| discriminate].
    inversion H; subst. split; [exact Hs |].
    destruct (pq s'); [reflexivity | discriminate].
  - destruct (pq_empty (pq s)) eqn:Hne.
    + inversion H; subst. split; [exact Hs |].
      destruct (pq s'); [reflexivity | discriminate].
    + eapply IH; [| exact H]. apply head_next; assumption.
Qed.

(** [run] returns, whatever the arguments, the clock and the draws: the
    queue seeded by [seed_jobs] bounds the number of iterations of the
    dispatch loop. *)
Lemma run_returns a o s0 :
  exists fuel s' wall_start,
    at_loop_head a o s0 s' /\ pq s' = [] /\
    wall_start = fst (run_prologue a o s0) /\
    forall fuel', (fuel <= fuel')%nat ->
      run fuel' a o s0 = Some (run_epilogue o wall_start s').
Proof.
  set (s1 := snd (run_prologue a o s0)).
  exists (queue_budget (pq s1)).
  destruct (dispatch_loop_enough a o (queue_budget (pq s1)) s1 (Nat.le_refl _))
    as [s' Hs'].
  exists s', (fst (run_prologue a o s0)).
  destruct (dispatch_loop_exit a o s0 _ s1 s' (head_first a o s0) Hs')
    as [Hh He].
  repeat split; try assumption.
  intros fuel' Hf. unfold run.
  destruct (run_prologue a o s0) as [wall_start s1'] eqn:Ep.
  replace fuel' with (queue_budget (pq s1) + (fuel' - queue_budget (pq s1)))%nat
    by lia.
  subst s1. simpl in *.
  rewrite (dispatch_loop_more_fuel _ _ _ _ _ _ Hs'). reflexivity.
Qed.

(** ** The end of the run *)

Lemma next_rowid_positive seq keys : 1 <= next_rowid seq keys.
Proof.
  unfold next_rowid.
  assert (0 <= fold_right Z.max (Z.max 0 seq) keys); [| lia].
  induction keys as [| k keys IH]; simpl; lia.
Qed.

Lemma run_epilogue_spec o wall s' :
  let s := run_epilogue o wall s' in
  pq s = pq s' /\ completed s = completed s' /\
  jobs (db s) = jobs (db s') /\
  exists row,
    runs (db s) = runs (db s') ++ [row] /\
    r_run_id row
    = next_rowid (runs_seq (db s')) (map r_run_id (runs (db s'))) /\
    r_success_jobs row = successes s' /\
    r_failed_jobs row = failures s' /\
    r_total_jobs row = successes s' + failures s' /\
    r_avg_wait_ms row
    = average (total_wait s') (successes s' + failures s') /\
    r_avg_service_ms row
    = average (total_service s') (successes s' + failures s') /\
    r_avg_turnaround_ms row
    = average (total_turn s') (successes s' + failures s').
Proof.
  unfold run_epilogue, rec_end. cbn.
  repeat split. eexists. split; [reflexivity |]. cbn. repeat split.
Qed.

Lemma count_terminal a l :
  Forall (terminal_ok a) l ->
  count_status "SUCCESS" l + count_status "FAILED" l
  = Z.of_nat (List.length l).
Proof.
  induction 1 as [| j l Hj _ IH]; [reflexivity |].
  rewrite !count_status_cons. cbn [List.length].
  destruct Hj as (_ & _ & _ & [E | [E _]]).
  - replace (has_status "SUCCESS" j) with true
      by (unfold has_status; rewrite E; reflexivity).
    replace (has_status "FAILED" j) with false
      by (unfold has_status; rewrite E; reflexivity).
    lia.
  - replace (has_status "SUCCESS" j) with false
      by (unfold has_status; rewrite E; reflexivity).
    replace (has_status "FAILED" j) with true
      by (unfold has_status; rewrite E; reflexivity).
    lia.
Qed.

(** What every run ends with.  [d0] is the database at its opening, [s] the
    final state and [row] the summary written by [record_run_summary]. *)
Lemma run_summary a o w :
  let d0 := disk o (args_db a) in
  exists fuel s row,
    (forall fuel', (fuel <= fuel')%nat ->
       run fuel' a o (Dispatcher_new a o w) = Some s) /\
    pq s = [] /\
    Forall (terminal_ok a) (completed s) /\
    Permutation (map ext_id (completed s)) (ids (args_jobs a)) /\
    runs (db s) = runs d0 ++ [row] /\
    1 <= r_run_id row /\
    r_success_jobs row = count_status "SUCCESS" (completed s) /\
    r_failed_jobs row = count_status "FAILED" (completed s) /\
    r_total_jobs row = r_success_jobs row + r_failed_jobs row /\
    r_avg_wait_ms row
    = average (sum_over wait_ms (filter (has_status "SUCCESS") (completed s)))
        (r_total_jobs row) /\
    r_avg_service_ms row
    = average
        (sum_over service_ms (filter (has_status "SUCCESS") (completed s)))
        (r_total_jobs row) /\
    r_avg_turnaround_ms row
    = average
        (sum_over turnaround_ms (filter (has_status "SUCCESS") (completed s)))
        (r_total_jobs row) /\
    exists rows, jobs (db s) = jobs d0 ++ rows /\ Forall row_ok rows.
Proof.
  intros d0.
  destruct (run_returns a o (Dispatcher_new a o w))
    as (fuel & s' & wall & Hh & He & _ & Hrun).
  pose proof (loop_inv_at_head a o w s' Hh) as I.
  destruct I as [Ipen Iter Iids Isu Ifa Iw Isv It Irid [Iruns Iseq] Irows].
  destruct (run_epilogue_spec o wall s')
    as (Hpq & Hco & Hjobs & row & Hr & Hid & Hs & Hf & Ht & Haw & Has & Hat).
  exists fuel, (run_epilogue o wall s'), row.
  rewrite Hpq, Hco, Hjobs, Hr, Hs, Hf, Ht, Haw, Has, Hat.
  rewrite He in Iids. simpl in Iids.
  rewrite Iruns, <- Isu, <- Ifa, <- Iw, <- Isv, <- It.
  repeat split; try assumption; try reflexivity.
  rewrite Hid. apply next_rowid_positive.
Qed.

(** ** Statistics *)

(** The sums that feed the averages range over the jobs of the completed set
    whose status is SUCCESS: the branch of a terminal failure increments
    [failures] and adds nothing to [total_wait], [total_service] and
    [total_turn], while the divisor [total] counts both kinds of jobs. *)
Lemma averages_over_successes_only a o w :
  exists fuel s row,
    (forall fuel', (fuel <= fuel')%nat ->
       run fuel' a o (Dispatcher_new a o w) = Some s) /\
    runs (db s) = runs (disk o (args_db a)) ++ [row] /\
    r_total_jobs row
    = count_status "SUCCESS" (completed s)
      + count_status "FAILED" (completed s) /\
    r_avg_wait_ms row
    = average (sum_over wait_ms (filter (has_status "SUCCESS") (completed s)))
        (r_total_jobs row) /\
    r_avg_service_ms row
    = average
        (sum_over service_ms (filter (has_status "SUCCESS") (completed s)))
        (r_total_jobs row) /\
    r_avg_turnaround_ms row
    = average
        (sum_over turnaround_ms (filter (has_status "SUCCESS") (completed s)))
        (r_total_jobs row).
Proof.
  destruct (run_summary a o w)
    as (fuel & s & row & Hrun & _ & _ & _ & Hr & _ & Hs & Hf & Ht
        & Hw & Hsv & Htu & _).
  exists fuel, s, row. rewrite <- Hs, <- Hf. repeat split; assumption.
Qed.

Lemma average_no_jobs sum : average sum 0 = 0%Q.
Proof. reflexivity. Qed.

(** C1.  A run of one job without retries whose only attempt fails: the job
    reaches the terminal state FAILED with waitMs 99, serviceMs 300 and
    turnaroundMs 149 and is counted in totalJobs = 1, but the three sums
    leave it out, so that the three averages of the summary are 0 and the
    average wait is not the sum of waitMs over the terminal jobs divided by
    totalJobs. *)
Theorem terminal_failure_left_out_of_sums :
  let a := sample_args 1 0 in
  let o := sample_oracle (fun _ => true) in
  exists s j row,
    run 1 a o (Dispatcher_new a o boot) = Some s /\
    completed s = [j] /\ status j = "FAILED" /\
    wait_ms j = 99 /\ service_ms j = 300 /\ turnaround_ms j = 149 /\
    runs (db s) = [row] /\
    r_total_jobs row = 1 /\ r_failed_jobs row = 1 /\
    r_avg_wait_ms row = 0%Q /\
    r_avg_service_ms row = 0%Q /\
    r_avg_turnaround_ms row = 0%Q /\
    ~ (r_avg_wait_ms row
       == average (sum_over wait_ms (completed s)) (r_total_jobs row))%Q.
Proof.
  cbv zeta. eexists. eexists. eexists.
  split; [vm_compute; reflexivity |].
  split; [reflexivity |].
  repeat (split; [reflexivity |]).
  vm_compute. discriminate.
Qed.

(** ** The recorder *)

(** C2.  In every run, each row that [record_job] writes carries run_id 0,
    the value that the recorder holds until the summary is inserted after
    the loop, whereas the summary row of the run receives a key of at least
    1: no attempt row identifies the summary row of its run. *)
Theorem attempt_rows_carry_run_id_zero a o w :
  exists fuel s row rows,
    (forall fuel', (fuel <= fuel')%nat ->
       run fuel' a o (Dispatcher_new a o w) = Some s) /\
    runs (db s) = runs (disk o (args_db a)) ++ [row] /\
    jobs (db s) = jobs (disk o (args_db a)) ++ rows /\
    1 <= r_run_id row /\
    Forall (fun r => j_run_id r = 0 /\ j_run_id r <> r_run_id row) rows.
Proof.
  destruct (run_summary a o w)
    as (fuel & s & row & Hrun & _ & _ & _ & Hr & Hid & _ & _ & _
        & _ & _ & _ & rows & Hrows & Hok).
  exists fuel, s, row, rows. repeat split; try assumption.
  eapply Forall_impl; [| exact Hok].
  intros r (H0 & _). split; [exact H0 | lia].
Qed.

(** The same on a run of one job on a new database: the attempt row says
    run 0, the summary row is run 1. *)
Example one_job_row_run_id :
  let a := sample_args 1 0 in
  let o := sample_oracle (fun _ => false) in
  exists s r row,
    run 1 a o (Dispatcher_new a o boot) = Some s /\
    jobs (db s) = [r] /\ runs (db s) = [row] /\
    j_run_id r = 0 /\ r_run_id row = 1.
Proof.
  cbv zeta. eexists. eexists. eexists.
  split; [vm_compute; reflexivity |].
  repeat split.
Qed.

(** What [record_job] stores in fail_reason, in every run: a FAILED row holds
    SIMULATED_FAILURE; a SUCCESS row holds the empty string on a first
    attempt and SIMULATED_FAILURE on a retry, because the retry branch
    resets [status] and leaves [fail_reason] as the failure set it. *)
Lemma recorded_fail_reason a o w :
  exists fuel s rows,
    (forall fuel', (fuel <= fuel')%nat ->
       run fuel' a o (Dispatcher_new a o w) = Some s) /\
    jobs (db s) = jobs (disk o (args_db a)) ++ rows /\
    Forall (fun r =>
      (j_status r = "SUCCESS" \/ j_status r = "FAILED") /\
      (j_status r = "FAILED" -> j_fail_reason r = "SIMULATED_FAILURE") /\
      (j_status r = "SUCCESS" -> j_attempt r = 0 -> j_fail_reason r = "") /\
      (j_status r = "SUCCESS" -> 0 < j_attempt r ->
       j_fail_reason r = "SIMULATED_FAILURE")) rows.
Proof.
  destruct (run_summary a o w)
    as (fuel & s & row & Hrun & _ & _ & _ & _ & _ & _ & _ & _
        & _ & _ & _ & rows & Hrows & Hok).
  exists fuel, s, rows. repeat split; try assumption.
  eapply Forall_impl; [| exact Hok].
  intros r (_ & H1 & H2 & H3 & H4). repeat split; auto.
Qed.

(** C3.  A run of one job with one retry whose first attempt fails and whose
    second attempt succeeds: the row of the successful attempt has status
    SUCCESS and fail_reason SIMULATED_FAILURE, not the empty string. *)
Theorem success_row_keeps_earlier_fail_reason :
  let a := sample_args 1 1 in
  let o := sample_oracle (fun n => (n <=? 2)%nat) in
  exists s r1 r2,
    run 2 a o (Dispatcher_new a o boot) = Some s /\
    jobs (db s) = [r1; r2] /\
    j_ext_id r1 = 1 /\ j_attempt r1 = 0 /\ j_status r1 = "FAILED" /\
    j_fail_reason r1 = "SIMULATED_FAILURE" /\
    j_ext_id r2 = 1 /\ j_attempt r2 = 1 /\ j_status r2 = "SUCCESS" /\
    j_fail_reason r2 = "SIMULATED_FAILURE" /\
    j_fail_reason r2 <> "".
Proof.
  cbv zeta. eexists. eexists. eexists.
  split; [vm_compute; reflexivity |].
  split; [reflexivity |].
  repeat (split; [reflexivity |]).
  discriminate.
Qed.

(** ** The retry policy *)

(** The two outcomes of a failed attempt. *)
Lemma loop_body_failure a o s j j1 s1 :
  pq_top (pq s) = Some j ->
  attempt_job a o j (set_pq s (pq_pop (pq s))) = (j1, true, s1) ->
  (attempt j < max_retries j ->
   exists j',
     pq (loop_body a o s) = pq_push j' (pq_pop (pq s)) /\
     completed (loop_body a o s) = completed s /\
     failures (loop_body a o s) = failures s /\
     ext_id j' = ext_id j /\ max_retries j' = max_retries j /\
     attempt j' = attempt j + 1 /\
     priority j' = Z.min 10 (priority j + 1) /\
     status j' = "PENDING") /\
  (max_retries j <= attempt j ->
   exists j',
     pq (loop_body a o s) = pq_pop (pq s) /\
     completed (loop_body a o s) = completed s ++ [j'] /\
     failures (loop_body a o s) = failures s + 1 /\
     ext_id j' = ext_id j /\ max_retries j' = max_retries j /\
     attempt j' = attempt j /\
     status j' = "FAILED").
Proof.
  intros T E.
  destruct (attempt_job_frame _ _ _ _ _ _ _ E)
    as [(Fid & Fpr & Fat & Fmr & _) (Fpq & Fco & _ & _ & _ & Ffa & _)].
  cbn in Fpq, Fco, Ffa.
  unfold loop_body. rewrite T, E. cbn. unfold on_failure. cbn.
  rewrite Fat, Fmr.
  split; intros G.
  - apply Z.ltb_lt in G. rewrite G. cbn. rewrite Fpq, Fco, Ffa.
    eexists. split; [reflexivity |]. cbn. rewrite ?Fid, ?Fmr, ?Fat, ?Fpr.
    repeat split.
  - apply Z.ltb_ge in G. rewrite G. cbn. rewrite Fpq, Fco, Ffa.
    eexists. split; [reflexivity |]. split; [reflexivity |].
    cbn. rewrite ?Fid, ?Fmr, ?Fat. repeat split.
Qed.

Lemma at_head_jobs a o w s j :
  at_loop_head a o (Dispatcher_new a o w) s ->
  In j (pq s ++ completed s) ->
  max_retries j = args_max_retries a /\
  1 <= priority j <= 10 /\
  (attempt j = 0 \/ 0 < attempt j <= max_retries j).
Proof.
  intros Hh Hin. apply loop_inv_at_head in Hh.
  destruct Hh as [Ipen Iter _ _ _ _ _ _ _ _ _].
  rewrite Forall_forall in Ipen, Iter.
  apply in_app_or in Hin. destruct Hin as [Hin | Hin].
  - destruct (Ipen j Hin) as (? & _ & ? & [[? _] | [? _]]); auto.
  - destruct (Iter j Hin) as (? & ? & ? & _); auto.
Qed.

(** C6 as amended.  In a run whose max_retries is not negative, the attempt
    counter of every pending and of every completed job lies in
    [[0, max_retries]] each time the loop tests its condition; and a job
    whose attempt has reached max_retries and whose attempt fails is added
    to the completed set with status FAILED, counted as a failure, and not
    pushed back on the queue. *)
Theorem attempt_bounded_and_no_requeue_at_cap
    (a : Args) (o : Oracle) (w s : State) :
  0 <= args_max_retries a ->
  at_loop_head a o (Dispatcher_new a o w) s ->
  (forall j, In j (pq s ++ completed s) ->
     0 <= attempt j <= max_retries j) /\
  (forall j j1 s1,
     pq_top (pq s) = Some j ->
     attempt_job a o j (set_pq s (pq_pop (pq s))) = (j1, true, s1) ->
     attempt j = max_retries j ->
     exists j',
       pq (loop_body a o s) = pq_pop (pq s) /\
       completed (loop_body a o s) = completed s ++ [j'] /\
       failures (loop_body a o s) = failures s + 1 /\
       ext_id j' = ext_id j /\ attempt j' = attempt j /\
       status j' = "FAILED").
Proof.
  intros Hr Hh. split.
  - intros j Hin.
    destruct (at_head_jobs a o w s j Hh Hin) as (Hm & _ & Ha). lia.
  - intros j j1 s1 T E Hcap.
    destruct (loop_body_failure a o s j j1 s1 T E) as [_ Hterm].
    destruct (Hterm ltac:(lia)) as (j' & ? & ? & ? & ? & ? & ? & ?).
    exists j'. repeat split; assumption.
Qed.

(** C6 as stated fails: with [--max-retries -1] the seeded job waits in the
    queue with attempt 0, which is not in [[0, -1]]. *)
Lemma negative_max_retries_attempt_above_cap :
  let a := sample_args 1 (-1) in
  let o := sample_oracle (fun _ => true) in
  exists s j,
    at_loop_head a o (Dispatcher_new a o boot) s /\
    In j (pq s ++ completed s) /\
    attempt j = 0 /\ max_retries j = -1 /\
    ~ (0 <= attempt j <= max_retries j).
Proof.
  cbv zeta. eexists. eexists.
  split; [apply head_first |].
  split; [vm_compute; left; reflexivity |].
  split; [reflexivity |]. split; [reflexivity |].
  vm_compute. intros [_ H]. apply H. reflexivity.
Qed.

(** C7.  Each time the loop tests its condition every pending and every
    completed job has a priority in [[1, 10]]; and a job whose attempt fails
    with retries left is pushed back with priority
    [min(10, previous + 1)], which is at least the previous priority and at
    most 10. *)
Theorem retry_priority_aging (a : Args) (o : Oracle) (w s : State) :
  at_loop_head a o (Dispatcher_new a o w) s ->
  (forall j, In j (pq s ++ completed s) -> 1 <= priority j <= 10) /\
  (forall j j1 s1,
     pq_top (pq s) = Some j ->
     attempt_job a o j (set_pq s (pq_pop (pq s))) = (j1, true, s1) ->
     attempt j < max_retries j ->
     exists j',
       pq (loop_body a o s) = pq_push j' (pq_pop (pq s)) /\
       ext_id j' = ext_id j /\
       attempt j' = attempt j + 1 /\
       priority j' = Z.min 10 (priority j + 1) /\
       priority j <= priority j' <= 10).
Proof.
  intros Hh. split.
  - intros j Hin.
    destruct (at_head_jobs a o w s j Hh Hin) as (_ & Hp & _). exact Hp.
  - intros j j1 s1 T E Hlt.
    destruct (loop_body_failure a o s j j1 s1 T E) as [Hretry _].
    destruct (Hretry Hlt) as (j' & Hq & _ & _ & Hid & _ & Hat & Hpr & _).
    exists j'. repeat split; try assumption.
    + assert (Hin : In j (pq s ++ completed s)).
      { apply in_or_app. left. apply pq_top_In, T. }
      destruct (at_head_jobs a o w s j Hh Hin) as (_ & Hp & _). lia.
    + lia.
Qed.

(** ** Backoff *)

Lemma shl_int_100_small n : 0 <= n <= 24 -> shl_int 100 n = 100 * 2 ^ n.
Proof.
  intros Hn. unfold shl_int. rewrite Z.shiftl_mul_pow2 by lia.
  apply to_int_small. unfold INT_MIN, INT_MAX.
  assert (0 < 2 ^ n) by (apply Z.pow_pos_nonneg; lia).
  assert (2 ^ n <= 2 ^ 24) by (apply Z.pow_le_mono_r; lia).
  change (2 ^ 24) with 16777216 in *. change (2 ^ 31) with 2147483648. lia.
Qed.

(** No sleep before a first attempt, and [100 * 2^(attempt-1)] ms before the
    retries up to the twenty-fifth, the last one whose backoff fits an
    [int]. *)
Lemma maybe_backoff_in_range j s :
  (attempt j = 0 -> maybe_backoff j s = s) /\
  (1 <= attempt j <= 25 ->
   maybe_backoff j s = sleep_for (100 * 2 ^ (attempt j - 1)) s).
Proof.
  unfold maybe_backoff. split; intros H.
  - rewrite H. reflexivity.
  - destruct (Z.eqb_spec (attempt j) 0) as [E | _]; [lia |].
    rewrite shl_int_100_small by lia. reflexivity.
Qed.

(** C8.  At attempt 26 the claimed backoff is [100 * 2^25 = 3355443200] ms,
    which no [int] holds: [100 << 25] is -939524096, and [maybe_backoff]
    sleeps for that negative duration.  The run of one job with
    [--max-retries 26] whose attempts all fail reaches that retry: its
    fifty-second sleep is the one of -939524096 ms, and none of its sleeps
    lasts 3355443200 ms. *)
Theorem backoff_wraps_at_attempt_26 :
  let a := sample_args 1 26 in
  let o := sample_oracle (fun _ => true) in
  let j := set_attempt (sample_job 1 5 0) 26 in
  100 * 2 ^ (attempt j - 1) = 3355443200 /\
  (forall x, to_int x <> 100 * 2 ^ (attempt j - 1)) /\
  maybe_backoff j boot = sleep_for (-939524096) boot /\
  exists s,
    run 27 a o (Dispatcher_new a o boot) = Some s /\
    nth 51 (sleeps (trace s)) 0 = -939524096 /\
    forallb (fun ms => negb (ms =? 3355443200)) (sleeps (trace s)) = true.
Proof.
  cbv zeta. split; [reflexivity |].
  split.
  { intros x H. pose proof (to_int_range x) as R. rewrite H in R.
    unfold INT_MAX in R. vm_compute in R. destruct R as [_ R]. apply R.
    reflexivity. }
  split; [reflexivity |].
  eexists. split; [vm_compute; reflexivity |].
  split; vm_compute; reflexivity.
Qed.

(** ** Every job is accounted for *)

Lemma ids_NoDup n : NoDup (ids n).
Proof.
  unfold ids. apply Injective_map_NoDup.
  - intros x y. apply Nat2Z.inj.
  - apply seq_NoDup.
Qed.

Lemma ids_length n : 0 <= n -> Z.of_nat (List.length (ids n)) = n.
Proof.
  intros H. unfold ids. rewrite length_map, length_seq. lia.
Qed.

(** *** The counter of the seeding loop *)

(** Below [INT_MAX] the counter never overflows and the loop makes
    [args.jobs] iterations: [seed_loop_int] is [seed_loop]. *)
Lemma seed_loop_int_agrees a o t0 n : forall fuel i s,
  1 <= i -> n = Z.to_nat (args_jobs a + 1 - i) -> args_jobs a < INT_MAX ->
  (n <= fuel)%nat ->
  seed_loop_int a o t0 fuel i s = Some (seed_loop a o t0 n i s).
Proof.
  unfold INT_MAX. change (2 ^ 31) with 2147483648.
  induction n as [| n IH]; intros fuel i s Hi Hn Hj Hf.
  - destruct fuel; cbn [seed_loop_int seed_loop];
      destruct (Z.leb_spec i (args_jobs a)); try lia; reflexivity.
  - destruct fuel as [| fuel]; [lia |]. cbn [seed_loop_int seed_loop].
    destruct (Z.leb_spec i (args_jobs a)); [| lia].
    destruct (rng_priority o s) as [p s1].
    rewrite to_int_small
      by (unfold INT_MIN, INT_MAX; change (2 ^ 31) with 2147483648; lia).
    apply IH; lia.
Qed.

Lemma seed_jobs_int_agrees fuel a o s :
  args_jobs a < INT_MAX -> (Z.to_nat (args_jobs a) <= fuel)%nat ->
  seed_jobs_int fuel a o s = Some (seed_jobs a o s).
Proof.
  intros Hj Hf. unfold seed_jobs_int, seed_jobs.
  destruct (now_ms o s) as [t0 s1].
  apply seed_loop_int_agrees; try assumption; lia.
Qed.

Lemma run_int_agrees fuel a o s :
  args_jobs a < INT_MAX -> (Z.to_nat (args_jobs a) <= fuel)%nat ->
  run_int fuel a o s = run fuel a o s.
Proof.
  intros Hj Hf. unfold run_int, run, run_prologue.
  rewrite seed_jobs_int_agrees by assumption. reflexivity.
Qed.

(** At [INT_MAX] the test [i <= args.jobs] holds of every [int]: the loop
    is never left. *)
Lemma seed_loop_int_never_ends a o t0 :
  args_jobs a = INT_MAX ->
  forall fuel i s,
    INT_MIN <= i <= INT_MAX -> seed_loop_int a o t0 fuel i s = None.
Proof.
  intros Hj. induction fuel as [| fuel IH]; intros i s Hi;
    cbn [seed_loop_int]; rewrite Hj;
    destruct (Z.leb_spec i INT_MAX); try lia; [reflexivity |].
  destruct (rng_priority o s) as [p s1].
  apply IH, to_int_range.
Qed.

Lemma seed_jobs_int_never_ends fuel a o s :
  args_jobs a = INT_MAX -> seed_jobs_int fuel a o s = None.
Proof.
  intros Hj. unfold seed_jobs_int. destruct (now_ms o s) as [t0 s1].
  apply seed_loop_int_never_ends; [exact Hj |].
  unfold INT_MIN, INT_MAX. change (2 ^ 31) with 2147483648. lia.
Qed.

(** C9 as amended.  Every run with a job count from 0 to [INT_MAX - 1]
    returns, with any fuel above a bound that the job count and the seeded
    queue give.  At its end the queue is empty, the completed set holds each
    external identifier of [1, ..., jobs] once, each of its jobs is SUCCESS,
    or FAILED with its retries exhausted (its attempt counter has reached
    max_retries), and the summary counts them: success_jobs and failed_jobs
    are the numbers of jobs of either status, and total_jobs is their sum
    and the configured job count. *)
Theorem every_seeded_job_ends_once (a : Args) (o : Oracle) (w : State) :
  0 <= args_jobs a < INT_MAX ->
  exists fuel s row,
    (forall fuel', (fuel <= fuel')%nat ->
       run_int fuel' a o (Dispatcher_new a o w) = Some s) /\
    pq s = [] /\
    runs (db s) = runs (disk o (args_db a)) ++ [row] /\
    r_total_jobs row = r_success_jobs row + r_failed_jobs row /\
    r_total_jobs row = args_jobs a /\
    Permutation (map ext_id (completed s)) (ids (args_jobs a)) /\
    NoDup (map ext_id (completed s)) /\
    Forall (fun j =>
      status j = "SUCCESS" \/
      (status j = "FAILED" /\
       max_retries j = args_max_retries a /\
       max_retries j <= attempt j /\
       (0 <= max_retries j -> attempt j = max_retries j)))
      (completed s) /\
    r_success_jobs row = count_status "SUCCESS" (completed s) /\
    r_failed_jobs row = count_status "FAILED" (completed s).
Proof.
  intros [Hjobs Hmax].
  destruct (run_summary a o w)
    as (fuel & s & row & Hrun & Hpq & Hter & Hperm & Hr & _ & Hs & Hf & Ht
        & _).
  exists (Nat.max fuel (Z.to_nat (args_jobs a))), s, row.
  split.
  { intros fuel' Hfuel. rewrite run_int_agrees by (try assumption; lia).
    apply Hrun. lia. }
  repeat split; try assumption.
  - rewrite Ht, Hs, Hf, (count_terminal a _ Hter).
    rewrite <- (length_map ext_id), (Permutation_length Hperm).
    apply ids_length, Hjobs.
  - eapply Permutation_NoDup; [apply Permutation_sym, Hperm |].
    apply ids_NoDup.
  - eapply Forall_impl; [| exact Hter].
    intros j (Hm & _ & Ha & [H | [H Hex]]); [left; exact H | right].
    repeat split; try assumption. lia.
Qed.

(** C9 as stated fails at the largest job count.  [--jobs 2147483647] is a
    non-negative job count that [parse_args] accepts; the test
    [i <= args.jobs] of the seeding loop then holds of every [int], the
    loop is never left, and the run reaches neither the dispatch loop nor
    its summary, whatever the clock, the draws and the fuel. *)
Lemma job_count_INT_MAX_never_seeded :
  let argv := ["dispatcher"; "--jobs"; "2147483647"] in
  exists a,
    parse_args argv = Some a /\
    0 <= args_jobs a /\ args_jobs a = INT_MAX /\
    (forall fuel o s, seed_jobs_int fuel a o s = None) /\
    (forall fuel o w, run_int fuel a o (Dispatcher_new a o w) = None) /\
    (forall fuel o, main_int fuel argv o = None).
Proof.
  cbv zeta. exists (set_args_jobs default_args INT_MAX).
  assert (Hs : forall fuel o s,
            seed_jobs_int fuel (set_args_jobs default_args INT_MAX) o s = None).
  { intros fuel o s. apply seed_jobs_int_never_ends. reflexivity. }
  assert (Hr : forall fuel o w,
            run_int fuel (set_args_jobs default_args INT_MAX) o
              (Dispatcher_new (set_args_jobs default_args INT_MAX) o w) = None).
  { intros fuel o w. unfold run_int. rewrite Hs. reflexivity. }
  split; [reflexivity |].
  split; [vm_compute; discriminate |].
  split; [reflexivity |].
  split; [exact Hs |]. split; [exact Hr |].
  intros fuel o. unfold main_int.
  change (parse_args ["dispatcher"; "--jobs"; "2147483647"])
    with (Some (set_args_jobs default_args INT_MAX)).
  apply Hr.
Qed.

(** ** Job counts that are not positive *)

(** [parse_args] stores what [std::stoi] returns, whatever its sign. *)
Lemma parse_args_jobs_unvalidated prog v n :
  stoi v = Some n ->
  parse_args [prog; "--jobs"; v] = Some (set_args_jobs default_args n).
Proof.
  intros H. unfold parse_args. cbn [tl parse_loop String.eqb Ascii.eqb Bool.eqb].
  rewrite H. reflexivity.
Qed.

Lemma dispatch_loop_empty a o fuel s :
  pq s = [] -> dispatch_loop a o fuel s = Some s.
Proof. intros H. destruct fuel; cbn [dispatch_loop]; rewrite H; reflexivity. Qed.

(** C10.  When the parsed job count is zero or negative, [main] neither
    rejects it nor fails: [seed_jobs] pushes no job and draws nothing, the
    loop is not entered (any fuel will do), no row is written to [jobs], no
    sleep happens, and the run writes a summary with totals 0, averages 0
    and throughput 0. *)
Theorem nonpositive_job_count_runs_empty
    (argv : list string) (a : Args) (o : Oracle) (fuel : nat) :
  parse_args argv = Some a ->
  args_jobs a <= 0 ->
  exists s row thr,
    main fuel argv o = Some s /\
    pq s = [] /\ completed s = [] /\ rng_draws s = 0%nat /\
    trace s = [LogStart a; LogSummary 0 0 0 0 0 0 thr] /\
    jobs (db s) = jobs (disk o (args_db a)) /\
    runs (db s) = runs (disk o (args_db a)) ++ [row] /\
    r_total_jobs row = 0 /\ r_success_jobs row = 0 /\
    r_failed_jobs row = 0 /\
    r_avg_wait_ms row = 0%Q /\ r_avg_service_ms row = 0%Q /\
    r_avg_turnaround_ms row = 0%Q /\
    r_throughput_jobs_per_s row = thr /\ (thr == 0)%Q.
Proof.
  intros Hparse Hjobs.
  unfold main. rewrite Hparse.
  unfold run, run_prologue, seed_jobs, rec_begin.
  replace (Z.to_nat (args_jobs a)) with 0%nat by lia.
  cbn. rewrite dispatch_loop_empty by reflexivity.
  unfold run_epilogue, rec_end. cbn.
  eexists. eexists. eexists.
  split; [reflexivity |]. cbn.
  repeat (split; [reflexivity |]).
  match goal with |- context [Qlt_bool 0 ?x] => destruct (Qlt_bool 0 x) end.
  - unfold Qdiv. apply Qmult_0_l.
  - reflexivity.
Qed.

(* ------------------------------------------------------------------ *)
(** ** The theorems at sample inputs *)

Lemma popMax_witness :
  sample_queue <> [] /\
  exists j q',
    popMax sample_queue = Some (j, q') /\
    In j sample_queue /\
    Permutation sample_queue (j :: q') /\
    forall k, In k sample_queue ->
      priority k <= priority j /\
      (priority k = priority j -> enqueue_ts j <= enqueue_ts k).
Proof.
  assert (H : sample_queue <> []) by (unfold sample_queue; discriminate).
  split; [exact H |].
  apply (popMax_highest_priority_then_earliest sample_queue H).
Defined.

Lemma attempt_bounded_witness :
  let a := sample_args 1 0 in
  let o := sample_oracle (fun _ => true) in
  let s := snd (run_prologue a o (Dispatcher_new a o boot)) in
  0 <= args_max_retries a /\
  at_loop_head a o (Dispatcher_new a o boot) s /\
  (forall j, In j (pq s ++ completed s) ->
     0 <= attempt j <= max_retries j) /\
  (forall j j1 s1,
     pq_top (pq s) = Some j ->
     attempt_job a o j (set_pq s (pq_pop (pq s))) = (j1, true, s1) ->
     attempt j = max_retries j ->
     exists j',
       pq (loop_body a o s) = pq_pop (pq s) /\
       completed (loop_body a o s) = completed s ++ [j'] /\
       failures (loop_body a o s) = failures s + 1 /\
       ext_id j' = ext_id j /\ attempt j' = attempt j /\
       status j' = "FAILED").
Proof.
  cbv zeta.
  assert (Hr : 0 <= args_max_retries (sample_args 1 0))
    by (vm_compute; discriminate).
  split; [exact Hr |].
  split; [apply head_first |].
  apply (attempt_bounded_and_no_requeue_at_cap (sample_args 1 0)
           (sample_oracle (fun _ => true)) boot _ Hr
           (head_first _ _ _)).
Defined.

Lemma retry_priority_witness :
  let a := sample_args 1 1 in
  let o := sample_oracle (fun _ => true) in
  let s := snd (run_prologue a o (Dispatcher_new a o boot)) in
  at_loop_head a o (Dispatcher_new a o boot) s /\
  (forall j, In j (pq s ++ completed s) -> 1 <= priority j <= 10) /\
  (forall j j1 s1,
     pq_top (pq s) = Some j ->
     attempt_job a o j (set_pq s (pq_pop (pq s))) = (j1, true, s1) ->
     attempt j < max_retries j ->
     exists j',
       pq (loop_body a o s) = pq_push j' (pq_pop (pq s)) /\
       ext_id j' = ext_id j /\
       attempt j' = attempt j + 1 /\
       priority j' = Z.min 10 (priority j + 1) /\
       priority j <= priority j' <= 10).
Proof.
  cbv zeta.
  split; [apply head_first |].
  apply (retry_priority_aging (sample_args 1 1)
           (sample_oracle (fun _ => true)) boot _ (head_first _ _ _)).
Defined.

Lemma every_seeded_job_witness :
  let a := sample_args 3 1 in
  let o := sample_oracle (fun n => Nat.even n) in
  0 <= args_jobs a < INT_MAX /\
  exists fuel s row,
    (forall fuel', (fuel <= fuel')%nat ->
       run_int fuel' a o (Dispatcher_new a o boot) = Some s) /\
    pq s = [] /\
    runs (db s) = runs (disk o (args_db a)) ++ [row] /\
    r_total_jobs row = r_success_jobs row + r_failed_jobs row /\
    r_total_jobs row = args_jobs a /\
    Permutation (map ext_id (completed s)) (ids (args_jobs a)) /\
    NoDup (map ext_id (completed s)) /\
    Forall (fun j =>
      status j = "SUCCESS" \/
      (status j = "FAILED" /\
       max_retries j = args_max_retries a /\
       max_retries j <= attempt j /\
       (0 <= max_retries j -> attempt j = max_retries j)))
      (completed s) /\
    r_success_jobs row = count_status "SUCCESS" (completed s) /\
    r_failed_jobs row = count_status "FAILED" (completed s).
Proof.
  cbv zeta.
  assert (Hj : 0 <= args_jobs (sample_args 3 1) < INT_MAX).
  { split; vm_compute; [discriminate | reflexivity]. }
  split; [exact Hj |].
  apply (every_seeded_job_ends_once (sample_args 3 1)
           (sample_oracle (fun n => Nat.even n)) boot Hj).
Defined.

Lemma nonpositive_job_count_witness :
  let argv := ["dispatcher"; "--jobs"; "-3"] in
  let a := set_args_jobs default_args (-3) in
  let o := sample_oracle (fun _ => true) in
  parse_args argv = Some a /\
  args_jobs a <= 0 /\
  exists s row thr,
    main 0 argv o = Some s /\
    pq s = [] /\ completed s = [] /\ rng_draws s = 0%nat /\
    trace s = [LogStart a; LogSummary 0 0 0 0 0 0 thr] /\
    jobs (db s) = jobs (disk o (args_db a)) /\
    runs (db s) = runs (disk o (args_db a)) ++ [row] /\
    r_total_jobs row = 0 /\ r_success_jobs row = 0 /\
    r_failed_jobs row = 0 /\
    r_avg_wait_ms row = 0%Q /\ r_avg_service_ms row = 0%Q /\
    r_avg_turnaround_ms row = 0%Q /\
    r_throughput_jobs_per_s row = thr /\ (thr == 0)%Q.
Proof.
  cbv zeta.
  assert (Hp : parse_args ["dispatcher"; "--jobs"; "-3"]
               = Some (set_args_jobs default_args (-3))) by reflexivity.
  assert (Hj : args_jobs (set_args_jobs default_args (-3)) <= 0)
    by (vm_compute; discriminate).
  split; [exact Hp |]. split; [exact Hj |].
  apply (nonpositive_job_count_runs_empty
           ["dispatcher"; "--jobs"; "-3"]
           (set_args_jobs default_args (-3))
           (sample_oracle (fun _ => true)) 0 Hp Hj).
Defined.


(* ================================================================== *)
(** * Further properties of the code *)

(** ** [JobCmp] *)

(** X1.  [JobCmp] is a strict weak ordering, as [std::priority_queue]
    requires of its comparator: it is irreflexive, asymmetric and
    transitive, and the jobs that it does not order, which are the jobs with
    the same priority and the same enqueue time stamp, do not order any
    third job differently. *)
Theorem JobCmp_strict_weak_ordering :
  (forall a, JobCmp a a = false) /\
  (forall a b, JobCmp a b = true -> JobCmp b a = false) /\
  (forall a b c, JobCmp a b = true -> JobCmp b c = true ->
                 JobCmp a c = true) /\
  (forall a b, JobCmp a b = false /\ JobCmp b a = false <->
               priority a = priority b /\ enqueue_ts a = enqueue_ts b) /\
  (forall a b c, JobCmp a b = false -> JobCmp b a = false ->
                 JobCmp a c = JobCmp b c /\ JobCmp c a = JobCmp c b).
Proof.
  assert (F : forall a b, JobCmp a b = false <->
                ~ (priority a < priority b \/
                   (priority a = priority b /\ enqueue_ts b < enqueue_ts a))).
  { intros a b. rewrite <- JobCmp_true. destruct (JobCmp a b); split;
      intros H; try reflexivity; try discriminate; congruence. }
  assert (E : forall a b, JobCmp a b = false /\ JobCmp b a = false <->
                priority a = priority b /\ enqueue_ts a = enqueue_ts b).
  { intros a b. rewrite !F. lia. }
  split; [| split; [| split; [| split]]].
  - intros a. apply F. lia.
  - intros a b H. apply JobCmp_true in H. apply F. lia.
  - intros a b c H1 H2. apply JobCmp_true in H1, H2. apply JobCmp_true. lia.
  - exact E.
  - intros a b c H H0.
    destruct (proj1 (E a b) (conj H H0)) as [Hp He]. split.
    + destruct (JobCmp a c) eqn:Hac; symmetry.
      * apply JobCmp_true in Hac. apply JobCmp_true. lia.
      * apply F in Hac. apply F. lia.
    + destruct (JobCmp c a) eqn:Hca; symmetry.
      * apply JobCmp_true in Hca. apply JobCmp_true. lia.
      * apply F in Hca. apply F. lia.
Qed.

(** ** [RNG] *)

Lemma round_half_away_nonneg x :
  (0 <= x)%Q ->
  (inject_Z (round_half_away x) <= x + (1 # 2))%Q /\
  (x - (1 # 2) < inject_Z (round_half_away x))%Q.
Proof.
  intros Hx. unfold round_half_away.
  destruct (Qle_bool 0 x) eqn:E.
  - split; [apply Qfloor_le |].
    pose proof (Qlt_floor (x + (1 # 2))) as H.
    rewrite inject_Z_plus in H.
    apply Qplus_lt_l with (z := 1%Q).
    setoid_replace (x - (1 # 2) + 1)%Q with (x + (1 # 2))%Q by ring.
    exact H.
  - apply Qle_bool_iff in Hx. congruence.
Qed.

Lemma double_to_int_small v : INT_MIN <= v <= INT_MAX -> double_to_int v = v.
Proof.
  intros H. unfold double_to_int.
  destruct (Z.leb_spec INT_MIN v); [| lia].
  destruct (Z.leb_spec v INT_MAX); [reflexivity | lia].
Qed.

Lemma double_to_int_large v : INT_MAX < v -> double_to_int v = INT_MIN.
Proof.
  intros H. unfold double_to_int.
  destruct (Z.leb_spec v INT_MAX); [lia |].
  rewrite andb_false_r. reflexivity.
Qed.

(** The rounded value of [max(30.0, x)]: at least 30, and an [int] when [x]
    is below [INT_MAX + 1/2]. *)
Lemma rounded_sample_range x :
  30 <= round_half_away (Qmax 30 x) /\
  ((x < inject_Z INT_MAX + (1 # 2))%Q ->
   round_half_away (Qmax 30 x) <= INT_MAX) /\
  ((inject_Z INT_MAX + (1 # 2) <= x)%Q ->
   INT_MAX < round_half_away (Qmax 30 x)).
Proof.
  assert (H30 : (30 <= Qmax 30 x)%Q) by apply Q.le_max_l.
  assert (H0 : (0 <= Qmax 30 x)%Q).
  { eapply Qle_trans; [| exact H30]. discriminate. }
  destruct (round_half_away_nonneg _ H0) as [Hle Hlt].
  split; [| split].
  - assert (Hq : (inject_Z 29 < inject_Z (round_half_away (Qmax 30 x)))%Q).
    { eapply Qle_lt_trans; [| exact Hlt].
      apply Qle_trans with (30 - (1 # 2))%Q; [discriminate |].
      apply Qplus_le_l with (z := (1 # 2)%Q).
      setoid_replace (30 - (1 # 2) + (1 # 2))%Q with 30%Q by ring.
      setoid_replace (Qmax 30 x - (1 # 2) + (1 # 2))%Q with (Qmax 30 x) by ring.
      exact H30. }
    rewrite <- Zlt_Qlt in Hq. lia.
  - intros Hx.
    assert (Hm : (Qmax 30 x < inject_Z INT_MAX + (1 # 2))%Q).
    { apply Q.max_lub_lt; [reflexivity | exact Hx]. }
    assert (Hq : (inject_Z (round_half_away (Qmax 30 x))
                  < inject_Z (INT_MAX + 1))%Q).
    { eapply Qle_lt_trans; [exact Hle |].
      rewrite inject_Z_plus.
      setoid_replace (inject_Z INT_MAX + inject_Z 1)%Q
        with (inject_Z INT_MAX + (1 # 2) + (1 # 2))%Q by ring.
      apply Qplus_lt_l. exact Hm. }
    rewrite <- Zlt_Qlt in Hq. lia.
  - intros Hx.
    assert (Hm : (inject_Z INT_MAX + (1 # 2) <= Qmax 30 x)%Q).
    { eapply Qle_trans; [exact Hx | apply Q.le_max_r]. }
    assert (Hq : (inject_Z INT_MAX
                  < inject_Z (round_half_away (Qmax 30 x)))%Q).
    { eapply Qle_lt_trans; [| exact Hlt].
      apply Qplus_le_l with (z := (1 # 2)%Q).
      setoid_replace (Qmax 30 x - (1 # 2) + (1 # 2))%Q with (Qmax 30 x) by ring.
      exact Hm. }
    rewrite <- Zlt_Qlt in Hq. exact Hq.
Qed.

(** X2.  [RNG::service_ms] returns the larger of 30 and the normal sample,
    rounded to a nearest integer, as long as that integer fits an [int]: the
    result is then at least 30.  When the sample reaches [INT_MAX + 1/2]
    the rounded value fits no [int] and the conversion yields [INT_MIN]. *)
Theorem service_ms_at_least_30_when_it_fits
    (a : Args) (o : Oracle) (s : State) :
  let x := (normal01 (entropy o (rng_draws s)) * inject_Z (args_stddev_ms a)
            + inject_Z (args_mean_ms a))%Q in
  let v := fst (rng_service_ms a o s) in
  ((x < inject_Z INT_MAX + (1 # 2))%Q ->
   30 <= v <= INT_MAX /\
   (Qmax 30 x - (1 # 2) < inject_Z v)%Q /\
   (inject_Z v <= Qmax 30 x + (1 # 2))%Q) /\
  ((inject_Z INT_MAX + (1 # 2) <= x)%Q -> v = INT_MIN).
Proof.
  cbv zeta. unfold rng_service_ms, next_draw. cbn [fst].
  set (x := (normal01 (entropy o (rng_draws s)) * inject_Z (args_stddev_ms a)
             + inject_Z (args_mean_ms a))%Q).
  destruct (rounded_sample_range x) as (H30 & Hfit & Hbig).
  assert (H0 : (0 <= Qmax 30 x)%Q).
  { eapply Qle_trans; [| apply Q.le_max_l]. discriminate. }
  destruct (round_half_away_nonneg _ H0) as [Hle Hlt].
  split; intros Hx.
  - specialize (Hfit Hx).
    rewrite double_to_int_small by (unfold INT_MIN; lia).
    repeat split; assumption.
  - apply double_to_int_large, Hbig, Hx.
Qed.

Lemma failure_probability_cases att :
  (att <= 2 ->
   (failure_probability att == (20 # 100) - (6 # 100) * inject_Z att)%Q) /\
  (3 <= att -> (failure_probability att == 2 # 100)%Q).
Proof.
  unfold failure_probability. split; intros H.
  - apply Q.max_r.
    unfold Qle, Qminus, Qplus, Qmult, Qopp, inject_Z. cbn [Qnum Qden].
    rewrite ?Pos2Z.inj_mul. lia.
  - apply Q.max_l.
    unfold Qle, Qminus, Qplus, Qmult, Qopp, inject_Z. cbn [Qnum Qden].
    rewrite ?Pos2Z.inj_mul. lia.
Qed.

Lemma failure_probability_low att : (2 # 100 <= failure_probability att)%Q.
Proof. apply Q.le_max_l. Qed.

Lemma failure_probability_mono att att' :
  att <= att' -> (failure_probability att' <= failure_probability att)%Q.
Proof.
  intros H.
  destruct (Z_le_gt_dec 3 att') as [H3 | H3].
  - rewrite (proj2 (failure_probability_cases att') H3). apply Q.le_max_l.
  - rewrite (proj1 (failure_probability_cases att') ltac:(lia)).
    rewrite (proj1 (failure_probability_cases att) ltac:(lia)).
    unfold Qle, Qminus, Qplus, Qmult, Qopp, inject_Z. cbn [Qnum Qden].
    rewrite ?Pos2Z.inj_mul. lia.
Qed.

(** X3.  The failure probability of [RNG::should_fail] is never below 0.02,
    it is at most 0.20 for an attempt number that is not negative, it does
    not increase with the attempt number, and it is 0.02 from attempt 4
    on. *)
Theorem failure_probability_profile :
  (forall att, (2 # 100 <= failure_probability att)%Q) /\
  (forall att, 0 <= att -> (failure_probability att <= 20 # 100)%Q) /\
  (forall att att', att <= att' ->
     (failure_probability att' <= failure_probability att)%Q) /\
  (forall att, 4 <= att -> (failure_probability att == 2 # 100)%Q).
Proof.
  split; [exact failure_probability_low |].
  split; [| split; [exact failure_probability_mono |]].
  - intros att Hatt.
    eapply Qle_trans; [apply (failure_probability_mono 0 att Hatt) |].
    discriminate.
  - intros att Hatt. apply failure_probability_cases. lia.
Qed.

(** X4.  An attempt of number zero or more fails whenever the Bernoulli
    variate is below 0.02 and succeeds whenever it is 0.20 or more; in
    between, a failure at some attempt is a failure at every earlier one. *)
Theorem should_fail_thresholds (o : Oracle) (s : State) (att : Z) :
  0 <= att ->
  let u := canonical (entropy o (rng_draws s)) in
  ((u < 2 # 100)%Q -> fst (rng_should_fail o att s) = true) /\
  ((20 # 100 <= u)%Q -> fst (rng_should_fail o att s) = false) /\
  (forall att', 0 <= att' <= att ->
     fst (rng_should_fail o att s) = true ->
     fst (rng_should_fail o att' s) = true).
Proof.
  intros Hatt. cbv zeta.
  unfold rng_should_fail, next_draw. cbn [fst].
  set (u := canonical (entropy o (rng_draws s))).
  assert (L : forall p, Qlt_bool u p = true <-> (u < p)%Q).
  { intros p. unfold Qlt_bool. destruct (Qle_bool p u) eqn:E; cbn [negb].
    - split; [discriminate |]. intros H. apply Qle_bool_iff in E.
      exfalso. exact (Qlt_not_le _ _ H E).
    - split; [| reflexivity]. intros _. apply Qnot_le_lt. intros H.
      apply Qle_bool_iff in H. congruence. }
  pose proof failure_probability_low as Hlow.
  pose proof failure_probability_mono as Hmono.
  split; [| split].
  - intros Hu. apply L. eapply Qlt_le_trans; [exact Hu | apply Hlow].
  - intros Hu. destruct (Qlt_bool u (failure_probability att)) eqn:E;
      [| reflexivity].
    apply L in E. exfalso.
    apply (Qlt_irrefl u). eapply Qlt_le_trans; [exact E |].
    eapply Qle_trans; [| exact Hu].
    eapply Qle_trans; [apply (Hmono 0 att Hatt) |].
    discriminate.
  - intros att' Ha' E. apply L in E. apply L.
    eapply Qlt_le_trans; [exact E |]. apply Hmono. lia.
Qed.

(** ** [parse_args] *)

Lemma parse_loop_skip a k rest :
  is_option k = false -> parse_loop a (k :: rest) = parse_loop a rest.
Proof.
  unfold is_option. intros H.
  repeat (apply orb_false_iff in H; destruct H as [H ?]).
  cbn [parse_loop].
  repeat match goal with E : String.eqb k _ = false |- _ => rewrite E; clear E end.
  reflexivity.
Qed.

Lemma parse_loop_last a k : parse_loop a [k] = Some a.
Proof.
  cbn [parse_loop].
  repeat match goal with
         | |- context [String.eqb k ?x] => destruct (String.eqb k x)
         end; reflexivity.
Qed.


Lemma parse_loop_ignores rest k : forall a,
  Forall (fun x => is_option x = false) rest ->
  parse_loop a (rest ++ [k]) = Some a.
Proof.
  induction rest as [| x rest IH]; intros a H; cbn [app].
  - apply parse_loop_last.
  - inversion H; subst. rewrite parse_loop_skip by assumption.
    apply IH. assumption.
Qed.


(** X5.  [parse_args] ignores every argument that is not one of its five
    option names, and an option name in last position, which has no value:
    the result is the default configuration. *)
Theorem parse_args_ignores_unknown_and_dangling
    (prog : string) (rest : list string) (k : string) :
  Forall (fun x => is_option x = false) rest ->
  parse_args (prog :: rest ++ [k]) = Some default_args.
Proof.
  intros H. unfold parse_args. cbn [tl]. apply parse_loop_ignores, H.
Qed.



(** ** [seed_jobs] *)

Lemma seed_loop_exact a o t0 n : forall i s,
  let s' := seed_loop a o t0 n i s in
  pq s' = pq s ++ map (fun k => seeded_job a o t0 (rng_draws s + k)
                                  (i + Z.of_nat k)) (seq 0 n) /\
  rng_draws s' = (rng_draws s + n)%nat /\
  clock_reads s' = clock_reads s /\ trace s' = trace s.
Proof.
  induction n as [| n IH]; intros i s; cbv zeta.
  - cbn. rewrite app_nil_r, Nat.add_0_r. repeat split.
  - cbn [seed_loop]. unfold rng_priority, next_draw.
    match goal with
    | |- context [seed_loop a o t0 n (i + 1) ?st] =>
        destruct (IH (i + 1) st) as (Hq & Hd & Hc & Ht)
    end.
    cbn in Hq, Hd, Hc, Ht. cbn. rewrite Hq, Hd, Hc, Ht.
    repeat split; try lia.
    unfold pq_push. rewrite <- app_assoc. f_equal. cbn [app map seq].
    f_equal.
    + unfold seeded_job. rewrite Nat.add_0_r, Z.add_0_r. reflexivity.
    + rewrite <- seq_shift, map_map. apply map_ext. intros k.
      f_equal; lia.
Qed.

(** X7.  For a job count below [INT_MAX], [seed_jobs] reads the clock once,
    for [t0], and calls [rng.priority()] once per job: it appends to the
    queue the jobs of identifiers [1, ..., jobs] in that order (none when
    [jobs <= 0]), job [i] with enqueue time stamp [t0 + i], attempt 0,
    status PENDING and the configured max_retries, and it changes nothing
    else.  The loop makes as many iterations as there are jobs. *)
Theorem seed_jobs_appends_jobs_in_order
    (fuel : nat) (a : Args) (o : Oracle) (s : State) :
  args_jobs a < INT_MAX ->
  (Z.to_nat (args_jobs a) <= fuel)%nat ->
  exists s',
    seed_jobs_int fuel a o s = Some s' /\
    let t0 := Z.quot (steady_ns o (clock_reads s)) 1000000 in
    pq s' = pq s ++ map (fun k => seeded_job a o t0 (rng_draws s + k)
                                    (1 + Z.of_nat k))
                      (seq 0 (Z.to_nat (args_jobs a))) /\
    rng_draws s' = (rng_draws s + Z.to_nat (args_jobs a))%nat /\
    clock_reads s' = S (clock_reads s) /\
    trace s' = trace s /\ completed s' = completed s /\
    db s' = db s /\ rec s' = rec s.
Proof.
  intros Hj Hf. exists (seed_jobs a o s).
  split; [apply seed_jobs_int_agrees; assumption |].
  cbv zeta. unfold seed_jobs, now_ms, Clock_now.
  match goal with
  | |- context [seed_loop a o ?t0 ?n 1 ?st] =>
      destruct (seed_loop_exact a o t0 n 1 st) as (Hq & Hd & Hc & Ht);
      destruct (seed_loop_spec a o t0 n 1 st) as (Hco & Hdb & Hrec & _)
  end.
  cbn in Hq, Hd, Hc, Ht, Hco, Hdb, Hrec.
  rewrite Hq, Hd, Hc, Ht, Hco, Hdb, Hrec. repeat split.
Qed.


(** ** The order of dispatch *)

Lemma run_prologue_fields a o w :
  let s := snd (run_prologue a o (Dispatcher_new a o w)) in
  let t0 := Z.quot (steady_ns o (S (clock_reads w))) 1000000 in
  pq s = map (fun k => seeded_job a o t0 k (1 + Z.of_nat k))
           (seq 0 (Z.to_nat (args_jobs a))) /\
  completed s = [] /\
  rng_draws s = Z.to_nat (args_jobs a) /\
  clock_reads s = S (S (S (clock_reads w))) /\
  trace s = trace w /\
  jobs (db s) = jobs (disk o (args_db a)) /\
  run_start_ms (rec s) = Z.quot (steady_ns o (clock_reads w)) 1000000.
Proof.
  cbv zeta. unfold run_prologue, rec_begin, seed_jobs, now_ms, Clock_now.
  cbn.
  match goal with
  | |- context [seed_loop a o ?t0 ?n 1 ?st] =>
      destruct (seed_loop_exact a o t0 n 1 st) as (Hq & Hd & Hc & Ht);
      destruct (seed_loop_spec a o t0 n 1 st) as (Hco & Hdb & Hrec & _)
  end.
  cbn in Hq, Hd, Hc, Ht, Hco, Hdb, Hrec.
  rewrite Hq, Hd, Hc, Ht, Hco, Hdb, Hrec. repeat split.
Qed.







(** ** The history of a run *)

Lemma rng_service_ms_floor a o s :
  samples_fit a o -> 30 <= fst (rng_service_ms a o s).
Proof.
  intros Hfit. unfold rng_service_ms, next_draw. cbn [fst].
  set (x := (normal01 (entropy o (rng_draws s)) * inject_Z (args_stddev_ms a)
             + inject_Z (args_mean_ms a))%Q).
  destruct (rounded_sample_range x) as (H30 & Hle & _).
  assert (Hx : (x < inject_Z INT_MAX + (1 # 2))%Q).
  { eapply Qle_lt_trans; [apply (Hfit (rng_draws s)) |].
    rewrite <- (Qplus_0_r (inject_Z INT_MAX)) at 1.
    apply Qplus_lt_r. reflexivity. }
  rewrite double_to_int_small by (specialize (Hle Hx); unfold INT_MIN; lia).
  exact H30.
Qed.

Lemma attempt_job_effects a o j s j1 fail s1 :
  attempt_job a o j s = (j1, fail, s1) ->
  start_ts j1 = Some (Z.quot (steady_ns o (clock_reads s)) 1000000) /\
  end_ts j1 = Some (Z.quot (steady_ns o (S (clock_reads s))) 1000000) /\
  wait_ms j1
  = to_int (Z.quot (steady_ns o (clock_reads s)) 1000000 - enqueue_ts j) /\
  turnaround_ms j1
  = to_int (Z.quot (steady_ns o (S (clock_reads s))) 1000000 - enqueue_ts j) /\
  (samples_fit a o -> 30 <= service_ms j1) /\
  trace s1
  = trace s
    ++ (if attempt j =? 0 then [] else [Sleep (shl_int 100 (attempt j - 1))])
    ++ [Sleep (service_ms j1)] /\
  rng_draws s1 = S (S (rng_draws s)) /\
  clock_reads s1 = S (S (clock_reads s)).
Proof.
  intros H.
  assert (Hsvc : forall n, samples_fit a o ->
            30 <= double_to_int
                    (round_half_away
                       (Qmax 30
                          (normal01 (entropy o n)
                           * inject_Z (args_stddev_ms a)
                           + inject_Z (args_mean_ms a))))).
  { intros n Hfit.
    exact (rng_service_ms_floor a o (set_rng_draws s n) Hfit). }
  unfold attempt_job, maybe_backoff in H.
  destruct (attempt j =? 0); cbn in H; inversion H; subst; cbn;
    repeat split; try reflexivity; try apply Hsvc;
    rewrite <- app_assoc; reflexivity.
Qed.

(** What one iteration of the loop writes and uses: [jf] is the job as it is
    recorded and logged. *)
Lemma loop_body_effects a o s j :
  pq_top (pq s) = Some j ->
  exists jf key,
    jobs (db (loop_body a o s))
    = jobs (db s) ++ [job_row key (run_id (rec s)) jf] /\
    trace (loop_body a o s)
    = trace s
      ++ (if attempt j =? 0 then []
          else [Sleep (shl_int 100 (attempt j - 1))])
      ++ [Sleep (service_ms jf); LogJob jf] /\
    rng_draws (loop_body a o s) = S (S (rng_draws s)) /\
    (clock_reads s + 2 <= clock_reads (loop_body a o s))%nat /\
    run_start_ms (rec (loop_body a o s)) = run_start_ms (rec s) /\
    start_ts jf = Some (Z.quot (steady_ns o (clock_reads s)) 1000000) /\
    end_ts jf = Some (Z.quot (steady_ns o (S (clock_reads s))) 1000000) /\
    wait_ms jf = to_int (value_or (start_ts jf) 0 - enqueue_ts jf) /\
    turnaround_ms jf = to_int (value_or (end_ts jf) 0 - enqueue_ts jf) /\
    (samples_fit a o -> 30 <= service_ms jf) /\
    (completed (loop_body a o s) = completed s \/
     completed (loop_body a o s) = completed s ++ [jf]).
Proof.
  intros T.
  destruct (loop_body_unfold a o s j T) as (j1 & fail & s1 & E & ->).
  destruct (attempt_job_frame _ _ _ _ _ _ _ E)
    as [(Fid & Fpr & Fat & Fmr & Fen & Ffr)
        (Fpq & Fco & Fdb & Frec & _)].
  destruct (attempt_job_effects _ _ _ _ _ _ _ E)
    as (Hst & Hen & Hw & Htu & Hsvc & Htr & Hdr & Hck).
  cbn in Fpq, Fco, Fdb, Frec, Htr, Hdr, Hck.
  destruct fail; cbn [negb].
  - unfold on_failure. cbn.
    destruct (attempt j1 <? max_retries j1); cbn;
      rewrite ?Fdb, ?Frec, ?Htr, ?Hdr, ?Hck, ?Fco;
      eexists; eexists;
      (split; [reflexivity |]); cbn;
      rewrite ?Hst, ?Hen, ?Hw, ?Htu, ?Fen; cbn;
      (split; [rewrite <- !app_assoc; reflexivity |]);
      repeat (split; [first [reflexivity | lia | exact Hsvc] |]);
      auto.
  - unfold on_success. cbn.
    rewrite ?Fdb, ?Frec, ?Htr, ?Hdr, ?Hck, ?Fco.
    eexists; eexists.
    split; [reflexivity |]. cbn.
    rewrite ?Hst, ?Hen, ?Hw, ?Htu, ?Fen. cbn.
    split; [rewrite <- !app_assoc; reflexivity |].
    repeat (split; [first [reflexivity | lia | exact Hsvc] |]).
    auto.
Qed.


















(** ** Throughput *)




(** ** The attempts of one job *)









(** ** [main] *)

(** X18.  As long as the SQLite calls succeed, as the model takes them to,
    [main] comes to its end on every command line that parses to a job
    count below [INT_MAX], whatever the clock, the draws and the rows that
    the database holds: the console shows the start line first and the
    summary last, whose total is the sum of its successes and failures, and
    the queue is empty.  When [parse_args] throws there is no run. *)
Theorem main_ends_when_parsing_succeeds (argv : list string) (o : Oracle) :
  match parse_args argv with
  | None => forall fuel, main_int fuel argv o = None
  | Some a =>
      args_jobs a < INT_MAX ->
      exists fuel s t succ fail avg_wait avg_service avg_turn thr,
        (forall fuel', (fuel <= fuel')%nat ->
           main_int fuel' argv o = Some s) /\
        pq s = [] /\
        trace s
        = LogStart a :: t
          ++ [LogSummary (succ + fail) succ fail
                avg_wait avg_service avg_turn thr] /\
        Forall (fun e => exists x, e = Sleep x \/ exists j, e = LogJob j) t
  end.
Proof.
  unfold main_int. destruct (parse_args argv) as [a |]; [| reflexivity].
  intros Hjobs.
  set (w := emit (LogStart a) boot).
  destruct (run_returns a o (Dispatcher_new a o w))
    as (fuel & s' & wall & Hh & He & _ & Hrun).
  assert (Hrun' : forall fuel',
            (Nat.max fuel (Z.to_nat (args_jobs a)) <= fuel')%nat ->
            run_int fuel' a o (Dispatcher_new a o w)
            = Some (run_epilogue o wall s')).
  { intros fuel' Hf. rewrite run_int_agrees by (try assumption; lia).
    apply Hrun. lia. }
  assert (Htr : exists t, trace s' = trace w ++ t /\
            Forall (fun e => exists x, e = Sleep x \/ exists j, e = LogJob j) t).
  { clear Hrun Hrun' He. induction Hh as [| s Hh IH Hne].
    - destruct (run_prologue_fields a o w) as (_ & _ & _ & _ & Ht & _).
      exists []. rewrite Ht, app_nil_r. split; [reflexivity | constructor].
    - destruct IH as (t & Ht & Hf).
      destruct (pq_top_nonempty _ Hne) as [j T].
      destruct (loop_body_effects a o s j T) as (jf & key & _ & Htr & _).
      eexists. rewrite Htr, Ht, <- app_assoc. split; [reflexivity |].
      apply Forall_app. split; [exact Hf |].
      apply Forall_app. split.
      + destruct (attempt j =? 0); constructor; [| constructor].
        exists (shl_int 100 (attempt j - 1)). left. reflexivity.
      + constructor; [exists (service_ms jf); left; reflexivity |].
        constructor; [| constructor].
        exists 0. right. exists jf. reflexivity. }
  destruct Htr as (t & Ht & Hf).
  exists (Nat.max fuel (Z.to_nat (args_jobs a))), (run_epilogue o wall s'), t.
  revert Hrun'. generalize (Nat.max fuel (Z.to_nat (args_jobs a))).
  intros fuel0 Hrun'.
  unfold run_epilogue, rec_end, now_ms, Clock_now. cbn.
  rewrite Ht, He. cbn.
  do 6 eexists.
  split; [exact Hrun' |]. split; [reflexivity |].
  split; [reflexivity | exact Hf].
Qed.

(* ================================================================== *)
(** * Reproducibility *)

(** ** The queue on a clock that is ahead *)












(** ** The same draws on a clock that is ahead *)

Section ClockAhead.

Variables o1 o2 : Oracle.
Variable c : Z.
Hypothesis same_draws : forall n, entropy o2 n = entropy o1 n.
Hypothesis clock_ahead :
  forall n, steady_ns o2 n = steady_ns o1 n + 1000000 * c.
Hypothesis clock1_nonneg : forall n, 0 <= steady_ns o1 n.
Hypothesis clock2_nonneg : forall n, 0 <= steady_ns o2 n.














End ClockAhead.

(** ** The draws are not in the hands of the command line *)









(* ------------------------------------------------------------------ *)
(** ** The further theorems at sample inputs *)

Lemma should_fail_thresholds_witness :
  let o := sample_oracle (fun _ => true) in
  let u := canonical (entropy o (rng_draws boot)) in
  0 <= 2 /\
  ((u < 2 # 100)%Q -> fst (rng_should_fail o 2 boot) = true) /\
  ((20 # 100 <= u)%Q -> fst (rng_should_fail o 2 boot) = false) /\
  (forall att', 0 <= att' <= 2 ->
     fst (rng_should_fail o 2 boot) = true ->
     fst (rng_should_fail o att' boot) = true).
Proof.
  cbv zeta.
  assert (H : 0 <= 2) by (vm_compute; discriminate).
  split; [exact H |].
  apply (should_fail_thresholds (sample_oracle (fun _ => true)) boot 2 H).
Defined.

Lemma parse_args_ignores_witness :
  Forall (fun x => is_option x = false) ["--verbose"; "7"] /\
  parse_args ("dispatcher" :: ["--verbose"; "7"] ++ ["--jobs"])
  = Some default_args.
Proof.
  assert (H : Forall (fun x => is_option x = false) ["--verbose"; "7"]).
  { repeat constructor. }
  split; [exact H |].
  apply (parse_args_ignores_unknown_and_dangling
           "dispatcher" ["--verbose"; "7"] "--jobs" H).
Defined.





Lemma service_ms_witness :
  let a := sample_args 1 0 in
  let o := sample_oracle (fun _ => false) in
  let a' := set_args_mean_ms a INT_MAX in
  let o' := wide_oracle in
  let x := (normal01 (entropy o 0) * inject_Z (args_stddev_ms a)
            + inject_Z (args_mean_ms a))%Q in
  let x' := (normal01 (entropy o' 0) * inject_Z (args_stddev_ms a')
             + inject_Z (args_mean_ms a'))%Q in
  let v := fst (rng_service_ms a o boot) in
  let v' := fst (rng_service_ms a' o' boot) in
  (x < inject_Z INT_MAX + (1 # 2))%Q /\
  (30 <= v <= INT_MAX /\
   (Qmax 30 x - (1 # 2) < inject_Z v)%Q /\
   (inject_Z v <= Qmax 30 x + (1 # 2))%Q) /\
  (inject_Z INT_MAX + (1 # 2) <= x')%Q /\
  v' = INT_MIN.
Proof.
  cbv zeta.
  assert (Hx : (normal01 (entropy (sample_oracle (fun _ => false)) 0)
                * inject_Z (args_stddev_ms (sample_args 1 0))
                + inject_Z (args_mean_ms (sample_args 1 0))
                < inject_Z INT_MAX + (1 # 2))%Q)
    by (vm_compute; reflexivity).
  assert (Hx' : (inject_Z INT_MAX + (1 # 2)
                 <= normal01 (entropy wide_oracle 0)
                    * inject_Z
                        (args_stddev_ms
                           (set_args_mean_ms (sample_args 1 0) INT_MAX))
                    + inject_Z
                        (args_mean_ms
                           (set_args_mean_ms (sample_args 1 0) INT_MAX)))%Q)
    by (vm_compute; discriminate).
  split; [exact Hx |].
  split;
    [exact (proj1 (service_ms_at_least_30_when_it_fits (sample_args 1 0)
                     (sample_oracle (fun _ => false)) boot) Hx) |].
  split; [exact Hx' |].
  exact (proj2 (service_ms_at_least_30_when_it_fits
                  (set_args_mean_ms (sample_args 1 0) INT_MAX)
                  wide_oracle boot) Hx').
Defined.

Lemma seed_jobs_witness :
  let a := sample_args 2 1 in
  let o := sample_oracle (fun _ => false) in
  args_jobs a < INT_MAX /\
  (Z.to_nat (args_jobs a) <= 2)%nat /\
  exists s',
    seed_jobs_int 2 a o boot = Some s' /\
    let t0 := Z.quot (steady_ns o (clock_reads boot)) 1000000 in
    pq s' = pq boot ++ map (fun k => seeded_job a o t0 (rng_draws boot + k)
                                       (1 + Z.of_nat k))
                         (seq 0 (Z.to_nat (args_jobs a))) /\
    rng_draws s' = (rng_draws boot + Z.to_nat (args_jobs a))%nat /\
    clock_reads s' = S (clock_reads boot) /\
    trace s' = trace boot /\ completed s' = completed boot /\
    db s' = db boot /\ rec s' = rec boot.
Proof.
  cbv zeta.
  assert (Hj : args_jobs (sample_args 2 1) < INT_MAX)
    by (vm_compute; reflexivity).
  assert (Hf : (Z.to_nat (args_jobs (sample_args 2 1)) <= 2)%nat)
    by (vm_compute; repeat constructor).
  split; [exact Hj |]. split; [exact Hf |].
  exact (seed_jobs_appends_jobs_in_order 2 (sample_args 2 1)
           (sample_oracle (fun _ => false)) boot Hj Hf).
Defined.

Lemma main_ends_witness :
  let argv := ["dispatcher"; "--jobs"; "2"] in
  let a := set_args_jobs default_args 2 in
  let o := sample_oracle (fun n => Nat.even n) in
  parse_args argv = Some a /\
  args_jobs a < INT_MAX /\
  exists fuel s t succ fail avg_wait avg_service avg_turn thr,
    (forall fuel', (fuel <= fuel')%nat -> main_int fuel' argv o = Some s) /\
    pq s = [] /\
    trace s
    = LogStart a :: t
      ++ [LogSummary (succ + fail) succ fail
            avg_wait avg_service avg_turn thr] /\
    Forall (fun e => exists x, e = Sleep x \/ exists j, e = LogJob j) t.
Proof.
  cbv zeta.
  assert (Hj : args_jobs (set_args_jobs default_args 2) < INT_MAX)
    by (vm_compute; reflexivity).
  split; [reflexivity |]. split; [exact Hj |].
  exact (main_ends_when_parsing_succeeds ["dispatcher"; "--jobs"; "2"]
           (sample_oracle (fun n => Nat.even n)) Hj).
Defined.
